(** * Query samplers of [cardinal/base.py]

    A shallow embedding of [BaseQuerySampler], [ScoredQuerySampler] and
    [ChainQuerySampler], and the properties of their [select_samples]
    methods; then of [ModalDensity] and of the labelling loop of
    [experiments/density.py].

    Conventions of the embedding:
    - a pool [X] (a 2-d [np.ndarray]) is a list of rows, [X.shape[0]] is its
      length; an index array is a list of natural numbers;
    - scores are elements of a type [F] with the arithmetic numpy does on
      it; the repository runs on IEEE doubles, the instance [binary64];
    - a method is a function from the state before the call to an outcome
      ([Ok v] or [Raise e]) and the state after it; the state of a scored
      sampler holds its attributes and the journal of what [base.py]
      itself reports (the warnings it issues, the calls of the scoring
      hook); the warnings numpy may issue during the arithmetic on the
      scores are not recorded;
    - what [base.py] imports and does not define is a parameter
      ([np.argsort], [np.sum], the arithmetic on scores,
      [RandomState.choice], the warning category) or a function written
      here for it ([np.arange], slicing and indexing of arrays). *)

From Stdlib Require Import String Ascii ZArith QArith Bool Arith Lia List.
From Stdlib Require Import Permutation Sorted DecimalString SpecFloat.
Import ListNotations.

Set Implicit Arguments.
Local Open Scope Z_scope.

(** ** Python values and effects *)

Definition row := list Q.
Definition ndarray := list row.
Definition labels := list Z.

(** The exceptions that [base.py] or the array operations it uses raise. *)
Inductive exn : Type :=
| ValueError (msg : string)
| AttributeError (attr : string)
| IndexError.

Inductive result (A : Type) : Type :=
| Ok (a : A)
| Raise (e : exn).
Arguments Ok {A} a.
Arguments Raise {A} e.

(** [from .typeutils import NotEnoughSamplesWarning]: the class is declared
    outside [base.py]; only its identity matters here. *)
Inductive warning_category : Type :=
| NotEnoughSamplesWarning.

(** What a call of [base.py] leaves behind besides its result and the
    attributes: the warnings [base.py] issues and the calls of the hook. *)
Inductive event : Type :=
| Warn (msg : string) (category : warning_category)
| ScoreSamples (X : ndarray).

(** A state-and-exception monad: an exception keeps the state reached. *)
Definition M (S A : Type) : Type := S -> result A * S.

Definition ret {S A} (a : A) : M S A := fun s => (Ok a, s).

Definition raise {S A} (e : exn) : M S A := fun s => (Raise e, s).

Definition bind {S A B} (m : M S A) (k : A -> M S B) : M S B :=
  fun s =>
    match m s with
    | (Ok a, s') => k a s'
    | (Raise e, s') => (Raise e, s')
    end.

Notation "x <- m ;; k" := (bind m (fun x => k))
  (at level 61, m at next level, right associativity).
Notation "m ;;; k" := (bind m (fun _ => k))
  (at level 61, right associativity).

(** ** The numpy operations used *)

(** [str(n)] for an integer, as ['{}'.format(n)] prints it. *)
Definition str_int (n : Z) : string := NilZero.string_of_int (Z.to_int n).

(** [np.arange(n)] *)
Definition arange (n : nat) : list nat := seq 0 n.

(** [a[start:]] with Python's treatment of a negative or too large start. *)
Definition slice_from {A} (start : Z) (a : list A) : list A :=
  let n := Z.of_nat (length a) in
  let lo := if start <? 0 then Z.max (start + n) 0 else Z.min start n in
  skipn (Z.to_nat lo) a.

(** [a[idx]] for an integer index array [idx]: [None] is IndexError. *)
Fixpoint take {A} (a : list A) (idx : list nat) : option (list A) :=
  match idx with
  | [] => Some []
  | i :: idx' =>
      match nth_error a i, take a idx' with
      | Some x, Some xs => Some (x :: xs)
      | _, _ => None
      end
  end.

(** ** Arrays of scores *)

(** What numpy supplies on arrays of scores whose entries are of type [F]:
    the comparison [x < y], the product and the quotient of two entries
    (applied entry by entry by [s ** 2] and [s / t]), [np.sum] and
    [np.argsort] with its default arguments. *)
Class Arrays (F : Type) : Type := {
  zero : F;
  less : F -> F -> bool;
  multiply : F -> F -> F;
  true_divide : F -> F -> F;
  np_sum : list F -> F;
  argsort : list F -> list nat
}.

(** [s ** 2] and [s / t] on a score vector *)
Definition square {F} `{Arrays F} (s : list F) : list F :=
  map (fun x => multiply x x) s.
Definition divide {F} `{Arrays F} (s : list F) (t : F) : list F :=
  map (fun x => true_divide x t) s.

(** [l] lists every index of [s] once, and no index comes after one of
    greater score. *)
Definition ascending {F} `{Arrays F} (s : list F) (l : list nat) : Prop :=
  Permutation l (seq 0 (length s))
  /\ StronglySorted
       (fun i j => less (nth j s zero) (nth i s zero) = false) l.

(** What numpy documents of [np.argsort]: the indices that sort the array.
    Nothing is said of the order of equal entries: the default kind of
    sort is not a stable one. *)
Definition argsort_contract {F} `{Arrays F} : Prop :=
  forall s : list F, ascending s (argsort s).

(** ** [RandomState] *)

(** [self.random_state] is a numpy generator; [choice g a size p] is
    [g.choice(a, size=size, replace=False, p=p)]: the sample or the error,
    and the generator after the draw. [probabilities p] tells whether
    [choice] takes [p] for a vector of probabilities (no entry that is not
    a number or is negative, a sum of one). *)
Class RandomSource (F G : Type) : Type := {
  probabilities : list F -> bool;
  choice : G -> list nat -> Z -> list F -> result (list nat) * G
}.

(** The positions of [p] holding a positive probability. *)
Definition positive_positions {F} `{Arrays F} (p : list F) : list nat :=
  filter (fun i => less zero (nth i p zero)) (seq 0 (length p)).

(** What numpy documents of [choice] without replacement: given as many
    probabilities as elements, that it takes for probabilities, and at
    least [size] of them positive, it returns [size] elements of [a] taken
    at pairwise different positions. *)
Definition choice_contract {F G} `{Arrays F} `{RandomSource F G} : Prop :=
  forall (g : G) (a : list nat) (size : Z) (p : list F),
    length p = length a ->
    0 <= size ->
    probabilities p = true ->
    size <= Z.of_nat (length (positive_positions p)) ->
    exists pos : list nat,
      fst (choice g a size p) = Ok (map (fun i => nth i a 0%nat) pos)
      /\ NoDup pos
      /\ Forall (fun i => (i < length a)%nat) pos
      /\ Z.of_nat (length pos) = size.

(** And when [p] is not taken for probabilities, or has fewer positive
    entries than the size asked for, [choice] raises [ValueError]. *)
Definition choice_rejects {F G} `{Arrays F} `{RandomSource F G} : Prop :=
  forall (g : G) (a : list nat) (size : Z) (p : list F),
    probabilities p = false
    \/ Z.of_nat (length (positive_positions p)) < size ->
    exists msg : string, fst (choice g a size p) = Raise (ValueError msg).

(** The weights that a weighted strategy computes from the scores [s] (or
    from their squares) can be used for a draw of [size] indices: [choice]
    takes them for probabilities, and at least [size] of them are
    positive. *)
Definition usable_weights {F G} `{Arrays F} `{RandomSource F G}
  (size : Z) (s : list F) : Prop :=
  let p := divide s (np_sum s) in
  probabilities p = true
  /\ size <= Z.of_nat (length (positive_positions p)).

(** A generator that draws nothing at random: it makes the checks of
    [choice], returns the first [size] positions of positive probability,
    and counts its draws. *)
Definition first_positive {F} `{Arrays F} (accepts : list F -> bool)
  (g : nat) (a : list nat) (size : Z) (p : list F)
  : result (list nat) * nat :=
  if negb (length p =? length a)%nat
  then (Raise (ValueError "'a' and 'p' must have same size"), g)
  else if negb (accepts p)
  then (Raise (ValueError "probabilities are not valid"), g)
  else if size <? 0
  then (Raise (ValueError "negative dimensions are not allowed"), g)
  else if Z.of_nat (length (positive_positions p)) <? size
  then (Raise (ValueError "Fewer non-zero entries in p than size"), g)
  else (Ok (map (fun i => nth i a 0%nat)
                (firstn (Z.to_nat size) (positive_positions p))), S g).

(** ** Sorting by insertion *)

(** The indices of [s] in the order of [le] on the scores, by insertion
    from the right: an index goes before the first one whose score it is
    [le] to. *)
Fixpoint insert_index {F} (le : F -> F -> bool) (d : F) (s : list F)
  (i : nat) (l : list nat) : list nat :=
  match l with
  | [] => [i]
  | j :: l' =>
      if le (nth i s d) (nth j s d) then i :: l
      else j :: insert_index le d s i l'
  end.

Definition insertion_argsort {F} (le : F -> F -> bool) (d : F)
  (s : list F) : list nat :=
  fold_right (insert_index le d s) [] (seq 0 (length s)).

(** ** Exact arithmetic *)

(** The rationals with their exact operations: the arithmetic of the real
    numbers the specification speaks of. *)
Definition exact_sum (s : list Q) : Q := fold_right Qplus 0%Q s.

(** Equal scores stay in the order of their indices. *)
Definition stable_argsort (s : list Q) : list nat :=
  insertion_argsort Qle_bool 0%Q s.

(** Equal scores come in the reverse order of their indices. *)
Definition reversed_argsort (s : list Q) : list nat :=
  insertion_argsort (fun x y => negb (Qle_bool y x)) 0%Q s.

(** Exact arithmetic with a given sort. *)
Definition with_argsort (sort : list Q -> list nat) : Arrays Q :=
  {| zero := 0%Q;
     less := fun x y => negb (Qle_bool y x);
     multiply := Qmult;
     true_divide := Qdiv;
     np_sum := exact_sum;
     argsort := sort |}.

#[export] Instance exact : Arrays Q := with_argsort stable_argsort.

Definition ties_reversed : Arrays Q := with_argsort reversed_argsort.

Definition exact_probabilities (p : list Q) : bool :=
  forallb (Qle_bool 0%Q) p && Qeq_bool (exact_sum p) 1%Q.

#[export] Instance first_positive_source : RandomSource Q nat :=
  {| probabilities := exact_probabilities;
     choice := first_positive exact_probabilities |}.

(** ** IEEE doubles *)

(** The arithmetic of [np.float64]: binary64, rounding to nearest even. *)
Definition float : Type := spec_float.

(** The double nearest to [m * 2 ^ e]. *)
Definition f64 (m e : Z) : float := binary_normalize 53 1024 m e false.

Definition is_nan (x : float) : bool :=
  match x with
  | S754_nan => true
  | _ => false
  end.

(** [argsort] is a sort by insertion; [np_sum] adds from left to right, as
    numpy does on an array of fewer than eight entries. *)
#[export] Instance binary64 : Arrays float :=
  {| zero := S754_zero false;
     less := SFltb;
     multiply := SFmul 53 1024;
     true_divide := SFdiv 53 1024;
     np_sum := fun s => fold_left (SFadd 53 1024) s (S754_zero false);
     argsort :=
       insertion_argsort (fun x y => negb (SFltb y x)) (S754_zero false) |}.

(** The checks of [choice] on [p]: no entry is not a number, none is
    negative, and the sum is one up to the square root of the machine
    epsilon, [2 ^ -26]. *)
Definition binary64_probabilities (p : list float) : bool :=
  forallb (fun x => negb (is_nan x) && negb (SFltb x (S754_zero false))) p
  && SFleb (SFabs (SFsub 53 1024 (np_sum p) (f64 1 0))) (f64 1 (-26)).

#[export] Instance first_positive_binary64 : RandomSource float nat :=
  {| probabilities := binary64_probabilities;
     choice := first_positive binary64_probabilities |}.

(** ** [ScoredQuerySampler] *)

(** The attributes of an instance: [batch_size] (set by
    [BaseQuerySampler.__init__]), [strategy] and [random_state] (set by
    [ScoredQuerySampler.__init__]), and [sample_scores_], which exists only
    once a call of [select_samples] has set it. *)
Record ScoredQuerySampler (F G : Type) : Type := mkScored {
  batch_size : Z;
  strategy : string;
  random_state : G;
  sample_scores_ : option (list F)
}.

(** The state a method of a scored sampler runs in. *)
Record world (F G : Type) : Type := mkWorld {
  self : ScoredQuerySampler F G;
  journal : list event
}.

Definition get {F G A} (attr : ScoredQuerySampler F G -> A)
  : M (world F G) A :=
  fun w => (Ok (attr (self w)), w).

(** [warn(msg, category)] *)
Definition warn {F G} (msg : string) (category : warning_category)
  : M (world F G) unit :=
  fun w => (Ok tt, mkWorld (self w) (journal w ++ [Warn msg category])).

(** [self.score_samples(X)], the abstract hook: the subclass supplies
    [score_samples]; the call is recorded. *)
Definition call_score_samples {F G} (score_samples : ndarray -> list F)
  (X : ndarray) : M (world F G) (list F) :=
  fun w => (Ok (score_samples X),
            mkWorld (self w) (journal w ++ [ScoreSamples X])).

(** The pools the scoring hook was called on, read off a journal. *)
Definition score_calls (j : list event) : list ndarray :=
  flat_map (fun ev => match ev with ScoreSamples X => [X] | Warn _ _ => [] end)
           j.

(** [self.sample_scores_ = v] *)
Definition set_sample_scores_ {F G} (v : list F) : M (world F G) unit :=
  fun w =>
    let s := self w in
    (Ok tt,
     mkWorld (mkScored (batch_size s) (strategy s) (random_state s) (Some v))
             (journal w)).

(** [self.random_state.choice(a, size=size, replace=False, p=p)]: the
    generator held by the instance advances. *)
Definition random_state_choice {F G} `{RandomSource F G}
  (a : list nat) (size : Z) (p : list F) : M (world F G) (list nat) :=
  fun w =>
    let s := self w in
    let (r, g') := choice (random_state s) a size p in
    (r, mkWorld (mkScored (batch_size s) (strategy s) g' (sample_scores_ s))
                (journal w)).

(** [BaseQuerySampler._not_enough_samples] *)
Definition not_enough_samples {F G} (X : ndarray) : M (world F G) bool :=
  requested <- get (@batch_size F G) ;;
  let cond := Z.of_nat (length X) <? requested in
  (if cond
   then warn ("Requested " ++ str_int requested
              ++ " samples but data only has "
              ++ str_int (Z.of_nat (length X)) ++ ".")
             NotEnoughSamplesWarning
   else ret tt) ;;;
  ret cond.

(** [ScoredQuerySampler.select_samples]. The journal holds what [base.py]
    itself reports; a warning that numpy issues while it computes the
    weights is not part of it. *)
Definition select_samples {F G} `{Arrays F} `{RandomSource F G}
  (score_samples : ndarray -> list F) (X : ndarray)
  : M (world F G) (list nat) :=
  short <- not_enough_samples X ;;
  if (short : bool) then ret (arange (length X))
  else
    sample_scores <- call_score_samples score_samples X ;;
    set_sample_scores_ sample_scores ;;;
    strat <- get (@strategy F G) ;;
    size <- get (@batch_size F G) ;;
    if (strat =? "top")%string then
      ret (slice_from (- size) (argsort sample_scores))
    else if (strat =? "linear_choice")%string then
      random_state_choice (arange (length X)) size
        (divide sample_scores (np_sum sample_scores))
    else if (strat =? "squared_choice")%string then
      let sample_scores := square sample_scores in
      random_state_choice (arange (length X)) size
        (divide sample_scores (np_sum sample_scores))
    else
      raise (ValueError ("Unknown sample selection strategy " ++ strat)).

(** A sampler freshly constructed: no [sample_scores_] yet, nothing done. *)
Definition new_sampler {F G} (batch : Z) (strat : string) (g : G)
  : world F G :=
  mkWorld (mkScored batch strat g None) [].

(** ** [ChainQuerySampler] *)

(** A sampler object as the chain uses it: its state and the methods its
    class defines. [fit] and [select_samples] are required of every
    [BaseQuerySampler]; [predict] is looked up on the object and may be
    missing. *)
Record sampler (St : Type) : Type := mkSampler {
  state : St;
  fit : ndarray -> option labels -> M St unit;
  select : ndarray -> M St (list nat);
  predict : option (ndarray -> M St (list nat))
}.

(** A method call on an object: the object keeps the state reached. *)
Definition call {St A} (o : sampler St) (m : M St A)
  : result A * sampler St :=
  let (r, st) := m (state o) in
  (r, mkSampler st (fit o) (select o) (predict o)).

(** The same call as a step of the code that holds the object. *)
Definition invoke {St A} (m : sampler St -> M St A) : M (sampler St) A :=
  fun o => call o (m o).

(** [sampler.predict]: the attribute lookup fails on an object whose class
    defines no such method. *)
Definition lookup_predict {St}
  : M (sampler St) (ndarray -> M St (list nat)) :=
  fun o =>
    match predict o with
    | Some predict_method => (Ok predict_method, o)
    | None => (Raise (AttributeError "predict"), o)
    end.

(** [a[idx]] as a step: an index out of range raises. *)
Definition getitem {S A} (a : list A) (idx : list nat) : M S (list A) :=
  match take a idx with
  | Some v => ret v
  | None => raise IndexError
  end.

(** The body of the [for] loop of [ChainQuerySampler.select_samples], run
    on the sampler of the current iteration; it returns the new value of
    [selected]. *)
Definition loop_body {St} (X : ndarray) (selected : list nat)
  : M (sampler St) (list nat) :=
  invoke (fun sampler => fit sampler X None) ;;;
  predict_method <- lookup_predict ;;
  X_selected <- getitem X selected ;;
  new_selected <- invoke (fun _ => predict_method X_selected) ;;
  getitem selected new_selected.

(** The loop over [self.sampler_list[1:]]: an exception leaves the
    remaining samplers untouched. *)
Fixpoint chain_loop {St} (X : ndarray) (rest : list (sampler St))
  (selected : list nat) : result (list nat) * list (sampler St) :=
  match rest with
  | [] => (Ok selected, [])
  | sampler :: rest' =>
      match loop_body X selected sampler with
      | (Raise e, sampler') => (Raise e, sampler' :: rest')
      | (Ok selected', sampler') =>
          let (r, rest'') := chain_loop X rest' selected' in
          (r, sampler' :: rest'')
      end
  end.

(** [ChainQuerySampler.select_samples] on the instance whose [sampler_list]
    is the state. *)
Definition chain_select_samples {St} (X : ndarray)
  : M (list (sampler St)) (list nat) :=
  fun sampler_list =>
    match sampler_list with
    | [] => (Raise IndexError, [])
    | first :: rest =>
        match call first (select first X) with
        | (Raise e, first') => (Raise e, first' :: rest)
        | (Ok selected, first') =>
            let (r, rest') := chain_loop X rest selected in
            (r, first' :: rest')
        end
    end.

(** [ChainQuerySampler.fit]: only the first sampler is fitted. *)
Definition chain_fit {St} (X : ndarray) (y : option labels)
  : M (list (sampler St)) unit :=
  fun sampler_list =>
    match sampler_list with
    | [] => (Raise IndexError, [])
    | first :: rest =>
        let (r, first') := call first (fit first X y) in
        (r, first' :: rest)
    end.

(** An instance of a concrete subclass of [ScoredQuerySampler] seen as a
    sampler object: the subclass defines [fit] and [score_samples],
    [select_samples] is inherited, and no class of [base.py] defines
    [predict]. *)
Definition scored_sampler {F G} `{Arrays F} `{RandomSource F G}
  (subclass_fit : ndarray -> option labels -> M (world F G) unit)
  (score_samples : ndarray -> list F) (w : world F G)
  : sampler (world F G) :=
  mkSampler w subclass_fit (select_samples score_samples) None.

(** ** The loop body as the specification words it

    The specification has each later sampler fitted on the rows of the
    subset selected so far. This definition follows those words and is the
    one [loop_body] is compared with. *)
Definition loop_body_fit_on_selected {St} (X : ndarray) (selected : list nat)
  : M (sampler St) (list nat) :=
  X_selected <- getitem X selected ;;
  invoke (fun sampler => fit sampler X_selected None) ;;;
  predict_method <- lookup_predict ;;
  new_selected <- invoke (fun _ => predict_method X_selected) ;;
  getitem selected new_selected.

(** ** Sample objects and inputs *)

(** A pool of five rows of one feature. *)
Definition pool5 : ndarray := [[10]; [20]; [30]; [40]; [50]]%Q.

(** A pool of three rows of two features. *)
Definition pool3 : ndarray := [[1; 2]; [3; 4]; [5; 6]]%Q.

(** Scoring hooks. *)
Definition tied_scores (_ : ndarray) : list Q := [1; 1; 1; 1; 100]%Q.
Definition first_feature (X : ndarray) : list Q :=
  map (fun r => nth 0%nat r 0%Q) X.
Definition squared_scores {F} `{Arrays F} (score_samples : ndarray -> list F)
  (X : ndarray) : list F := square (score_samples X).

(** A [fit] that learns nothing. *)
Definition fit_nothing {S} (_ : ndarray) (_ : option labels) : M S unit :=
  ret tt.

(** A sampler that remembers every pool it was fitted on, and whose
    [select_samples] and [predict] both return [picks]. *)
Definition recording_sampler (picks : list nat) (fitted : list ndarray)
  : sampler (list ndarray) :=
  mkSampler fitted
    (fun X _ seen => (Ok tt, seen ++ [X]))
    (fun _ => ret picks)
    (Some (fun _ => ret picks)).

(** A chain of two samplers of strategy ['top'] with batch sizes 3 and 2. *)
Definition two_top_chain : list (sampler (world Q nat)) :=
  [scored_sampler fit_nothing first_feature (new_sampler 3 "top" 0%nat);
   scored_sampler fit_nothing first_feature (new_sampler 2 "top" 0%nat)].

(** * [experiments/density.py] *)

(** ** Boolean masks *)

(** [np.zeros(n, dtype=bool)] *)
Definition zeros_bool (n : nat) : list bool := repeat false n.

(** [~mask] *)
Definition invert (mask : list bool) : list bool := map negb mask.

(** The number of entries of a mask that hold. *)
Definition count_true (mask : list bool) : nat :=
  length (filter (fun b : bool => b) mask).

(** [a[i] = v] for an index [i] in range. *)
Fixpoint put {A} (i : nat) (v : A) (a : list A) : list A :=
  match a, i with
  | [], _ => []
  | _ :: a', O => v :: a'
  | x :: a', S i' => x :: put i' v a'
  end.

(** [mask[idx] = True] for an integer index array [idx]: an index out of
    range raises, and then nothing is assigned. *)
Definition set_true (mask : list bool) (idx : list nat)
  : result (list bool) :=
  if forallb (fun i => (i <? length mask)%nat) idx
  then Ok (fold_left (fun m i => put i true m) idx mask)
  else Raise IndexError.

(** The entries of [a] where [mask] holds, in order. *)
Fixpoint compress {A} (mask : list bool) (a : list A) : list A :=
  match mask, a with
  | true :: mask', x :: a' => x :: compress mask' a'
  | false :: mask', _ :: a' => compress mask' a'
  | _, _ => []
  end.

(** [a[mask]] for a boolean mask: numpy wants the mask as long as [a]. *)
Definition getitem_mask {A} (a : list A) (mask : list bool)
  : result (list A) :=
  if (length mask =? length a)%nat then Ok (compress mask a)
  else Raise IndexError.

(** The entries of [a] where [mask] holds replaced, in order, by
    [values]. *)
Fixpoint scatter {A} (a : list A) (mask : list bool) (values : list A)
  : list A :=
  match a, mask with
  | x :: a', true :: mask' =>
      match values with
      | v :: values' => v :: scatter a' mask' values'
      | [] => x :: a'
      end
  | x :: a', false :: mask' => x :: scatter a' mask' values
  | _, _ => a
  end.

(** [a[mask] = values]: the values are as many as the entries of the mask
    that hold, or a single value that is put everywhere; otherwise numpy
    raises. *)
Definition setitem_mask {A} (a : list A) (mask : list bool) (values : list A)
  : result (list A) :=
  if negb (length mask =? length a)%nat then Raise IndexError
  else if (length values =? count_true mask)%nat
       then Ok (scatter a mask values)
       else match values with
            | [v] => Ok (scatter a mask (repeat v (count_true mask)))
            | _ =>
                Raise (ValueError
                  ("NumPy boolean array indexing assignment cannot assign "
                   ++ str_int (Z.of_nat (length values))
                   ++ " input values to the "
                   ++ str_int (Z.of_nat (count_true mask))
                   ++ " output values where the mask is true"))
            end.

(** [np.where(y == c)[0][0]]: the first position of [c] in [y]; there is
    none when [c] does not occur, and the subscript raises. *)
Fixpoint first_index (c : Z) (y : labels) : option nat :=
  match y with
  | [] => None
  | v :: y' => if v =? c then Some O else option_map S (first_index c y')
  end.

(** A result as a step of any state. *)
Definition lift {S A} (r : result A) : M S A := fun s => (r, s).

(** [for _ in range(n): body] *)
Fixpoint for_range {S} (n : nat) (body : M S unit) : M S unit :=
  match n with
  | O => ret tt
  | Datatypes.S n' => body ;;; for_range n' body
  end.

(** ** [ModalDensity] *)

Module Density.

(** The attributes set by [__init__]. *)
Record ModalDensity : Type := mkModalDensity {
  n_samples : Z;
  metric : string
}.

(** [ModalDensity(n_samples)] has the default metric. *)
Definition init (n_samples : Z) : ModalDensity :=
  mkModalDensity n_samples "euclidean".

(** [ModalDensity.fit] returns the object as it is. *)
Definition fit (self : ModalDensity) (X : ndarray) (y : labels)
  : ModalDensity := self.

(** [ModalDensity.predict]. [information_density] is modAL's function,
    which gives one density per row of [X]. *)
Definition predict {F} `{Arrays F}
  (information_density : ndarray -> string -> list F)
  (self : ModalDensity) (X : ndarray) : result (list bool) :=
  let selected := zeros_bool (length X) in
  let density := information_density X (metric self) in
  set_true selected (slice_from (- n_samples self) (argsort density)).

End Density.

(** ** The experiment *)

Module Experiment.

Definition n_samples : Z := 1000.
Definition n_iter : Z := 20.
Definition batch_size : Z := n_samples / n_iter / 2.
Definition split_index : Z := n_samples / 2 + 2.

Definition modal_euclidean : Density.ModalDensity := Density.init batch_size.
Definition modal_cosine : Density.ModalDensity :=
  Density.mkModalDensity batch_size "cosine".

(** The variables of one fold that the loop over [j] updates. *)
Record locals : Type := mkLocals {
  selected : list bool;
  scores : list Q
}.

Definition get_selected : M locals (list bool) :=
  fun l => (Ok (selected l), l).

Definition set_selected (v : list bool) : M locals unit :=
  fun l => (Ok tt, mkLocals v (scores l)).

Definition append_score (score : Q) : M locals unit :=
  fun l => (Ok tt, mkLocals (selected l) (scores l ++ [score])).

(** An iteration of the loop over [j], for a [method] that is a
    [ModalDensity]. [model_score X y X_test y_test] is
    [model.fit(X, y).score(X_test, y_test)], taken to return. *)
Definition iteration {F} `{Arrays F}
  (information_density : ndarray -> string -> list F)
  (model_score : ndarray -> labels -> ndarray -> labels -> Q)
  (method : Density.ModalDensity)
  (X_train : ndarray) (y_train : labels) (X_test : ndarray) (y_test : labels)
  : M locals unit :=
  mask <- get_selected ;;
  X_labelled <- lift (getitem_mask X_train mask) ;;
  y_labelled <- lift (getitem_mask y_train mask) ;;
  let method := Density.fit method X_labelled y_labelled in
  pool <- lift (getitem_mask X_train (invert mask)) ;;
  new_selected <- lift (Density.predict information_density method pool) ;;
  mask' <- lift (setitem_mask mask (invert mask) new_selected) ;;
  set_selected mask' ;;;
  X_labelled <- lift (getitem_mask X_train mask') ;;
  y_labelled <- lift (getitem_mask y_train mask') ;;
  append_score (model_score X_labelled y_labelled X_test y_test).

(** The body of the loop over the folds, from the data [X], [y] that
    [make_classification] returned, up to the end of the loop over [j]. *)
Definition fold {F} `{Arrays F}
  (information_density : ndarray -> string -> list F)
  (model_score : ndarray -> labels -> ndarray -> labels -> Q)
  (method : Density.ModalDensity) (X : ndarray) (y : labels)
  : M locals unit :=
  let X_train := firstn (Z.to_nat split_index) X in
  let y_train := firstn (Z.to_nat split_index) y in
  let X_test := slice_from split_index X in
  let y_test := slice_from split_index y in
  set_selected (zeros_bool (length X_train)) ;;;
  match first_index 0 y_train with
  | None => raise IndexError
  | Some i0 =>
      mask <- get_selected ;;
      mask <- lift (set_true mask [i0]) ;;
      set_selected mask ;;;
      match first_index 1 y_train with
      | None => raise IndexError
      | Some i1 =>
          mask <- get_selected ;;
          mask <- lift (set_true mask [i1]) ;;
          set_selected mask ;;;
          (fun l => (Ok tt, mkLocals (selected l) [])) ;;;
          for_range (Z.to_nat n_iter)
            (iteration information_density model_score method
               X_train y_train X_test y_test)
      end
  end.

End Experiment.

(** A density for sample runs: the first feature of each row. *)
Definition feature_density (X : ndarray) (_ : string) : list Q :=
  map (fun r => nth 0%nat r 0%Q) X.

(** Scores with ties between the two best and between the two worst. *)
Definition pool4 : ndarray := [[1]; [2]; [3]; [4]]%Q.
Definition two_pairs (_ : ndarray) : list Q := [1; 1; 0; 0]%Q.


(** * Properties *)

(** ** Lists and slices *)

Lemma StronglySorted_weaken {A} (R R' : A -> A -> Prop) (l : list A) :
  (forall x y, R x y -> R' x y) ->
  StronglySorted R l -> StronglySorted R' l.
Proof.
  intros Himp. induction 1 as [|a l _ IH Ha]; constructor; [exact IH|].
  eapply Forall_impl; [|exact Ha]. intros y. apply Himp.
Qed.

Lemma StronglySorted_app_cross {A} (R : A -> A -> Prop) (l1 l2 : list A) :
  StronglySorted R (l1 ++ l2) ->
  forall x y, In x l1 -> In y l2 -> R x y.
Proof.
  induction l1 as [|a l1 IH]; cbn; intros Hs x y Hx Hy; [contradiction|].
  inversion Hs as [|? ? Hs' Ha]; subst.
  destruct Hx as [<- | Hx].
  - rewrite Forall_forall in Ha. apply Ha, in_or_app. right. exact Hy.
  - eapply IH; eassumption.
Qed.

Lemma NoDup_skipn {A} (k : nat) (l : list A) : NoDup l -> NoDup (skipn k l).
Proof.
  intros Hl. rewrite <- (firstn_skipn k l) in Hl.
  eapply NoDup_app_remove_l. exact Hl.
Qed.

Lemma In_skipn {A} (k : nat) (l : list A) (x : A) :
  In x (skipn k l) -> In x l.
Proof.
  intros Hx. rewrite <- (firstn_skipn k l). apply in_or_app. right. exact Hx.
Qed.

(** A slice [a[-b:]] with [0 < b <= len(a)] is the last [b] elements. *)
Lemma slice_from_last {A} (b : Z) (a : list A) :
  0 < b <= Z.of_nat (length a) ->
  slice_from (- b) a = skipn (length a - Z.to_nat b) a.
Proof.
  intros Hb. unfold slice_from.
  destruct (Z.ltb_spec (- b) 0); [|lia].
  f_equal. lia.
Qed.

Lemma slice_from_last_length {A} (b : Z) (a : list A) :
  0 < b <= Z.of_nat (length a) ->
  Z.of_nat (length (slice_from (- b) a)) = b.
Proof.
  intros Hb. rewrite slice_from_last by exact Hb.
  rewrite length_skipn. lia.
Qed.

Lemma StronglySorted_skipn {A} (R : A -> A -> Prop) (k : nat) (l : list A) :
  StronglySorted R l -> StronglySorted R (skipn k l).
Proof.
  revert l. induction k as [|k IH]; intros l Hl; [exact Hl|].
  destruct l as [|a l]; [constructor|]. cbn.
  apply IH. inversion Hl; assumption.
Qed.

Lemma last_In {A} (l : list A) (d : A) : l <> [] -> In (last l d) l.
Proof.
  induction l as [|a l IH]; intros Hne; [congruence|].
  destruct l as [|b l]; [now left|].
  right. apply IH. discriminate.
Qed.

Lemma last_skipn {A} (k : nat) (l : list A) (d : A) :
  (k < length l)%nat -> last (skipn k l) d = last l d.
Proof.
  revert l. induction k as [|k IH]; intros l Hk; [reflexivity|].
  destruct l as [|a l]; [cbn in Hk; lia|].
  cbn [skipn]. rewrite IH by (cbn in Hk; lia).
  destruct l as [|b l]; [cbn in Hk; lia | reflexivity].
Qed.

Lemma In_firstn {A} (k : nat) (l : list A) (x : A) :
  In x (firstn k l) -> In x l.
Proof.
  intros Hx. rewrite <- (firstn_skipn k l). apply in_or_app. left. exact Hx.
Qed.

(** ** Sorting *)

Section Insertion.

Context {F : Type} (le : F -> F -> bool) (d : F) (s : list F).

Lemma insert_index_perm (i : nat) (l : list nat) :
  Permutation (insert_index le d s i l) (i :: l).
Proof.
  induction l as [|j l IH]; cbn.
  - apply Permutation_refl.
  - destruct (le (nth i s d) (nth j s d)).
    + apply Permutation_refl.
    + eapply perm_trans; [apply perm_skip, IH | apply perm_swap].
Qed.

Lemma sort_indices_perm (l : list nat) :
  Permutation (fold_right (insert_index le d s) [] l) l.
Proof.
  induction l as [|i l IH]; cbn.
  - constructor.
  - eapply perm_trans; [apply insert_index_perm | apply perm_skip, IH].
Qed.

Lemma insertion_argsort_perm :
  Permutation (insertion_argsort le d s) (seq 0 (length s)).
Proof. apply sort_indices_perm. Qed.

(** When [le] decides a transitive relation [R] one way or the other, the
    insertions keep the list in the order of [R]. *)
Variable R : F -> F -> Prop.
Hypothesis R_trans : forall x y z, R x y -> R y z -> R x z.
Hypothesis le_true : forall x y, le x y = true -> R x y.
Hypothesis le_false : forall x y, le x y = false -> R y x.

Lemma insert_index_sorted (i : nat) (l : list nat) :
  StronglySorted (fun i j => R (nth i s d) (nth j s d)) l ->
  StronglySorted (fun i j => R (nth i s d) (nth j s d))
    (insert_index le d s i l).
Proof.
  induction l as [|j l IH]; intros Hs; cbn.
  - repeat constructor.
  - inversion Hs as [|? ? Hs' Hj]; subst.
    destruct (le (nth i s d) (nth j s d)) eqn:Hle.
    + constructor; [exact Hs|].
      constructor; [apply le_true, Hle|].
      rewrite Forall_forall in *. intros k Hk.
      eapply R_trans; [apply le_true, Hle | apply Hj, Hk].
    + constructor; [apply IH, Hs'|].
      rewrite Forall_forall in *. intros k Hk.
      apply (Permutation_in _ (insert_index_perm i l)) in Hk.
      destruct Hk as [<- | Hk]; [apply le_false, Hle | apply Hj, Hk].
Qed.

Lemma insertion_argsort_sorted :
  StronglySorted (fun i j => R (nth i s d) (nth j s d))
    (insertion_argsort le d s).
Proof.
  unfold insertion_argsort.
  induction (seq 0 (length s)) as [|i l IH]; cbn.
  - constructor.
  - apply insert_index_sorted, IH.
Qed.

End Insertion.

Lemma Qle_bool_false (x y : Q) : Qle_bool x y = false -> (y <= x)%Q.
Proof.
  intros Hle. apply Qlt_le_weak, Qnot_le_lt. intros Hc.
  apply Qle_bool_iff in Hc. congruence.
Qed.

(** In exact arithmetic, a sort that lists the indices in the order of the
    scores honours the contract of [np.argsort]. *)
Lemma exact_ascending (sort : list Q -> list nat) (s : list Q) :
  Permutation (sort s) (seq 0 (length s)) ->
  StronglySorted (fun i j => (nth i s 0 <= nth j s 0)%Q) (sort s) ->
  @ascending Q (with_argsort sort) s (sort s).
Proof.
  intros Hperm Hsorted. split; [exact Hperm|].
  revert Hsorted. apply StronglySorted_weaken. cbn. intros i j Hle.
  apply negb_false_iff, Qle_bool_iff, Hle.
Qed.

Lemma stable_argsort_contract : @argsort_contract Q exact.
Proof.
  intros s. apply (exact_ascending stable_argsort).
  - apply insertion_argsort_perm.
  - apply insertion_argsort_sorted.
    + intros x y z. apply Qle_trans.
    + intros x y. apply Qle_bool_iff.
    + apply Qle_bool_false.
Qed.

Lemma reversed_argsort_contract : @argsort_contract Q ties_reversed.
Proof.
  intros s. apply (exact_ascending reversed_argsort).
  - apply insertion_argsort_perm.
  - apply insertion_argsort_sorted.
    + intros x y z. apply Qle_trans.
    + intros x y Hlt. apply negb_true_iff in Hlt.
      apply Qle_bool_false, Hlt.
    + intros x y Hlt. apply negb_false_iff in Hlt.
      apply Qle_bool_iff, Hlt.
Qed.

(** What follows from the contract of [np.argsort]. *)
Section Sorted.

Context {F : Type} `{Arrays F}.
Hypothesis sorts : argsort_contract.

Lemma argsort_perm (s : list F) :
  Permutation (argsort s) (seq 0 (length s)).
Proof. apply sorts. Qed.

Lemma argsort_sorted (s : list F) :
  StronglySorted (fun i j => less (nth j s zero) (nth i s zero) = false)
    (argsort s).
Proof. apply sorts. Qed.

Lemma argsort_length (s : list F) : length (argsort s) = length s.
Proof.
  rewrite (Permutation_length (argsort_perm s)). apply length_seq.
Qed.

Lemma argsort_NoDup (s : list F) : NoDup (argsort s).
Proof.
  eapply Permutation_NoDup; [apply Permutation_sym, argsort_perm|].
  apply seq_NoDup.
Qed.

Lemma argsort_In (s : list F) (i : nat) :
  In i (argsort s) <-> (i < length s)%nat.
Proof.
  split; intros Hi.
  - apply (Permutation_in _ (argsort_perm s)) in Hi.
    apply in_seq in Hi. lia.
  - apply (Permutation_in _ (Permutation_sym (argsort_perm s))).
    apply in_seq. lia.
Qed.

End Sorted.

(** ** The generators *)


Section FirstPositive.

Context {F : Type} `{Arrays F} (accepts : list F -> bool).

Lemma first_positive_draws (g : nat) (a : list nat) (size : Z)
  (p : list F) :
  length p = length a -> 0 <= size -> accepts p = true ->
  size <= Z.of_nat (length (positive_positions p)) ->
  exists pos : list nat,
    fst (first_positive accepts g a size p)
    = Ok (map (fun i => nth i a 0%nat) pos)
    /\ NoDup pos
    /\ Forall (fun i => (i < length a)%nat) pos
    /\ Z.of_nat (length pos) = size.
Proof.
  intros Hlen Hsize Hacc Hcount. unfold first_positive.
  rewrite Hlen, Nat.eqb_refl, Hacc. cbn [negb].
  destruct (Z.ltb_spec size 0); [lia|].
  destruct (Z.ltb_spec (Z.of_nat (length (positive_positions p))) size);
    [lia|].
  exists (firstn (Z.to_nat size) (positive_positions p)).
  assert (Hnd : NoDup (positive_positions p))
    by (apply NoDup_filter, seq_NoDup).
  repeat split.
  - rewrite <- (firstn_skipn (Z.to_nat size)) in Hnd.
    eapply NoDup_app_remove_r. exact Hnd.
  - rewrite Forall_forall. intros i Hi.
    assert (Hi' : In i (positive_positions p)).
    { rewrite <- (firstn_skipn (Z.to_nat size)). apply in_or_app. now left. }
    apply filter_In in Hi'. destruct Hi' as [Hi' _].
    apply in_seq in Hi'. lia.
  - rewrite length_firstn. lia.
Qed.

Lemma first_positive_raises (g : nat) (a : list nat) (size : Z)
  (p : list F) :
  accepts p = false
  \/ Z.of_nat (length (positive_positions p)) < size ->
  exists msg : string,
    fst (first_positive accepts g a size p) = Raise (ValueError msg).
Proof.
  intros Hbad. unfold first_positive.
  destruct (negb (length p =? length a)%nat); [eexists; reflexivity|].
  destruct (accepts p); cbn [negb]; [|eexists; reflexivity].
  destruct (Z.ltb_spec size 0); [eexists; reflexivity|].
  destruct (Z.ltb_spec (Z.of_nat (length (positive_positions p))) size);
    [eexists; reflexivity|].
  destruct Hbad as [Hbad | Hbad]; [discriminate | lia].
Qed.

End FirstPositive.


Lemma first_positive_rejects :
  @choice_rejects Q nat exact first_positive_source.
Proof.
  intros g a size p. apply (first_positive_raises exact_probabilities).
Qed.

Lemma first_positive_binary64_contract :
  @choice_contract float nat binary64 first_positive_binary64.
Proof.
  intros g a size p. apply (first_positive_draws binary64_probabilities).
Qed.

Lemma first_positive_binary64_rejects :
  @choice_rejects float nat binary64 first_positive_binary64.
Proof.
  intros g a size p. apply (first_positive_raises binary64_probabilities).
Qed.

(** ** Weights in exact arithmetic *)





(** ** Running [select_samples] *)

Section Scored.

Context {F G : Type} `{Arrays F} `{RandomSource F G}.

(** The state in which the strategy is dispatched: the scores are cached
    and the call of the hook is in the journal. *)
Lemma select_samples_enough (score_samples : ndarray -> list F)
  (X : ndarray) (w : world F G) :
  batch_size (self w) <= Z.of_nat (length X) ->
  let s := self w in
  let scores := score_samples X in
  let w1 := mkWorld (mkScored (batch_size s) (strategy s) (random_state s)
                              (Some scores))
                    (journal w ++ [ScoreSamples X]) in
  select_samples score_samples X w =
    if (strategy s =? "top")%string then
      (Ok (slice_from (- batch_size s) (argsort scores)), w1)
    else if (strategy s =? "linear_choice")%string then
      random_state_choice (arange (length X)) (batch_size s)
        (divide scores (np_sum scores)) w1
    else if (strategy s =? "squared_choice")%string then
      random_state_choice (arange (length X)) (batch_size s)
        (divide (square scores) (np_sum (square scores))) w1
    else
      (Raise (ValueError ("Unknown sample selection strategy " ++ strategy s)),
       w1).
Proof.
  intros Hge. cbv zeta.
  unfold select_samples, not_enough_samples, bind, get, ret, raise,
    call_score_samples, set_sample_scores_; cbn.
  destruct (Z.ltb_spec (Z.of_nat (length X)) (batch_size (self w)));
    [lia|]. cbn.
  destruct (strategy (self w) =? "top")%string; [reflexivity|].
  destruct (strategy (self w) =? "linear_choice")%string; [reflexivity|].
  destruct (strategy (self w) =? "squared_choice")%string; reflexivity.
Qed.

Lemma select_samples_short (score_samples : ndarray -> list F)
  (X : ndarray) (w : world F G) :
  Z.of_nat (length X) < batch_size (self w) ->
  select_samples score_samples X w =
    (Ok (seq 0 (length X)),
     mkWorld (self w)
       (journal w ++
        [Warn ("Requested " ++ str_int (batch_size (self w))
               ++ " samples but data only has "
               ++ str_int (Z.of_nat (length X)) ++ ".")
              NotEnoughSamplesWarning])).
Proof.
  intros Hlt.
  unfold select_samples, not_enough_samples, bind, get, ret, warn; cbn.
  destruct (Z.ltb_spec (Z.of_nat (length X)) (batch_size (self w)));
    [|lia]. cbn. reflexivity.
Qed.

Lemma score_calls_app (j1 j2 : list event) :
  score_calls (j1 ++ j2) = score_calls j1 ++ score_calls j2.
Proof. unfold score_calls. apply flat_map_app. Qed.

Lemma random_state_choice_fst (a : list nat) (size : Z) (p : list F)
  (w : world F G) :
  fst (random_state_choice a size p w)
  = fst (choice (random_state (self w)) a size p).
Proof.
  unfold random_state_choice.
  destruct (choice (random_state (self w)) a size p); reflexivity.
Qed.

Lemma random_state_choice_snd (a : list nat) (size : Z) (p : list F)
  (w : world F G) :
  snd (random_state_choice a size p w)
  = mkWorld (mkScored (batch_size (self w)) (strategy (self w))
                      (snd (choice (random_state (self w)) a size p))
                      (sample_scores_ (self w)))
            (journal w).
Proof.
  unfold random_state_choice.
  destruct (choice (random_state (self w)) a size p); reflexivity.
Qed.


(** Weights that cannot be used make the call raise. *)
Lemma rejected_weights_raise (score_samples : ndarray -> list F)
  (X : ndarray) (w : world F G) (s : list F) :
  choice_rejects ->
  batch_size (self w) <= Z.of_nat (length X) ->
  (strategy (self w) = "linear_choice"%string /\ s = score_samples X)
  \/ (strategy (self w) = "squared_choice"%string
      /\ s = square (score_samples X)) ->
  ~ usable_weights (batch_size (self w)) s ->
  exists msg : string,
    fst (select_samples score_samples X w) = Raise (ValueError msg).
Proof.
  intros Hrejects Hge Hstrat Hbad.
  assert (Hcase : probabilities (divide s (np_sum s)) = false
                  \/ Z.of_nat (length (positive_positions
                                         (divide s (np_sum s))))
                     < batch_size (self w)).
  { unfold usable_weights in Hbad. cbv zeta in Hbad.
    destruct (probabilities (divide s (np_sum s))); [|now left].
    right. lia. }
  rewrite select_samples_enough by exact Hge. cbv zeta.
  destruct Hstrat as [[Hs ->] | [Hs ->]]; rewrite Hs; cbn [String.eqb];
    cbn; rewrite random_state_choice_fst; cbn; apply Hrejects, Hcase.
Qed.

(** What ['top'] returns, given a sort that honours the contract. *)
Lemma select_samples_top_sorted (score_samples : ndarray -> list F)
  (X : ndarray) (w : world F G) :
  argsort_contract ->
  strategy (self w) = "top"%string ->
  length (score_samples X) = length X ->
  0 < batch_size (self w) <= Z.of_nat (length X) ->
  let scores := score_samples X in
  let index :=
    skipn (length X - Z.to_nat (batch_size (self w))) (argsort scores) in
  fst (select_samples score_samples X w) = Ok index
  /\ Z.of_nat (length index) = batch_size (self w)
  /\ NoDup index
  /\ Forall (fun i => (i < length X)%nat) index
  /\ StronglySorted
       (fun i j => less (nth j scores zero) (nth i scores zero) = false)
       index
  /\ (forall i j : nat,
        (i < length X)%nat -> ~ In i index -> In j index ->
        less (nth j scores zero) (nth i scores zero) = false).
Proof.
  intros Hsorts Hs Hlen Hsize scores index.
  rewrite select_samples_enough by lia. cbv zeta. rewrite Hs. cbn.
  fold scores.
  assert (Hl : length (argsort scores) = length X)
    by (rewrite (argsort_length Hsorts); exact Hlen).
  rewrite slice_from_last by (rewrite Hl; exact Hsize). rewrite Hl.
  fold index.
  split; [reflexivity|]. split; [|split; [|split; [|split]]].
  - unfold index. rewrite length_skipn. lia.
  - apply NoDup_skipn, (argsort_NoDup Hsorts).
  - rewrite Forall_forall. intros i Hi.
    apply In_skipn, (argsort_In Hsorts) in Hi. unfold scores in Hi. lia.
  - apply StronglySorted_skipn, (argsort_sorted Hsorts).
  - intros i j Hi Hout Hin.
    set (k := (length X - Z.to_nat (batch_size (self w)))%nat) in *.
    assert (Hi' : In i (firstn k (argsort scores) ++ index)).
    { unfold index. rewrite firstn_skipn. apply (argsort_In Hsorts).
      unfold scores. lia. }
    apply in_app_or in Hi'. destruct Hi' as [Hi' | Hi']; [|contradiction].
    apply (@StronglySorted_app_cross _
             (fun i j => less (nth j scores zero) (nth i scores zero) = false)
             (firstn k (argsort scores)) index); try assumption.
    unfold index. rewrite firstn_skipn. apply (argsort_sorted Hsorts).
Qed.


(** C2. On a pool of fewer than [batch_size] rows, [select_samples]
    returns the indices [0 .. len(X)-1] in ascending order, and the only
    thing it does besides is to issue one [NotEnoughSamplesWarning] whose
    message gives the requested and the available numbers; the call
    returns normally. *)
Theorem select_samples_not_enough (score_samples : ndarray -> list F)
  (X : ndarray) (w : world F G) :
  Z.of_nat (length X) < batch_size (self w) ->
  select_samples score_samples X w =
    (Ok (seq 0 (length X)),
     mkWorld (self w)
       (journal w ++
        [Warn ("Requested " ++ str_int (batch_size (self w))
               ++ " samples but data only has "
               ++ str_int (Z.of_nat (length X)) ++ ".")
              NotEnoughSamplesWarning])).
Proof. apply select_samples_short. Qed.

(** C6. On a pool of at least [batch_size] rows, a strategy that is none
    of ['top'], ['linear_choice'], ['squared_choice'] makes
    [select_samples] raise a [ValueError] whose message ends with the
    strategy given; no selection is returned. *)
Theorem select_samples_unknown_strategy (score_samples : ndarray -> list F)
  (X : ndarray) (w : world F G) :
  batch_size (self w) <= Z.of_nat (length X) ->
  strategy (self w) <> "top"%string ->
  strategy (self w) <> "linear_choice"%string ->
  strategy (self w) <> "squared_choice"%string ->
  fst (select_samples score_samples X w)
  = Raise (ValueError
             ("Unknown sample selection strategy " ++ strategy (self w))).
Proof.
  intros Hge H1 H2 H3.
  rewrite select_samples_enough by exact Hge. cbv zeta.
  apply String.eqb_neq in H1, H2, H3. rewrite H1, H2, H3. reflexivity.
Qed.

(** C7. On a pool of at least [batch_size] rows and scores whose squares
    have a positive sum, ['squared_choice'] from a generator state returns
    what ['linear_choice'] returns from the same generator state when the
    hook returns the squared scores, and leaves the generator in the same
    state. *)
Theorem squared_choice_as_linear_choice (score_samples : ndarray -> list F)
  (X : ndarray) (batch : Z) (g : G) (cache cache' : option (list F))
  (j j' : list event) :
  batch <= Z.of_nat (length X) ->
  less zero (np_sum (square (score_samples X))) = true ->
  let squared :=
    select_samples score_samples X
      (mkWorld (mkScored batch "squared_choice" g cache) j) in
  let linear :=
    select_samples (squared_scores score_samples) X
      (mkWorld (mkScored batch "linear_choice" g cache') j') in
  fst squared = fst linear
  /\ random_state (self (snd squared)) = random_state (self (snd linear)).
Proof.
  intros Hge _. cbv zeta.
  rewrite !select_samples_enough by exact Hge. cbn.
  rewrite !random_state_choice_fst, !random_state_choice_snd. cbn.
  split; reflexivity.
Qed.

(** C8. After a call under ['squared_choice'] on a pool of at least
    [batch_size] rows, [sample_scores_] holds the scores as the hook
    returned them, while the draw was made with the squared scores divided
    by their sum. *)
Theorem squared_choice_caches_raw_scores (score_samples : ndarray -> list F)
  (X : ndarray) (w : world F G) :
  batch_size (self w) <= Z.of_nat (length X) ->
  strategy (self w) = "squared_choice"%string ->
  let scores := score_samples X in
  sample_scores_ (self (snd (select_samples score_samples X w)))
  = Some scores
  /\ fst (select_samples score_samples X w)
     = fst (choice (random_state (self w)) (arange (length X))
              (batch_size (self w))
              (divide (square scores) (np_sum (square scores)))).
Proof.
  intros Hge Hs. cbv zeta.
  rewrite select_samples_enough by exact Hge. cbv zeta. rewrite Hs. cbn.
  rewrite random_state_choice_fst, random_state_choice_snd. cbn.
  split; reflexivity.
Qed.

(** C9. When [select_samples] raises for an unknown strategy, the
    attribute [sample_scores_] already holds the scores just computed:
    the instance is changed although nothing is returned. *)
Theorem unknown_strategy_keeps_scores (score_samples : ndarray -> list F)
  (X : ndarray) (w : world F G) :
  batch_size (self w) <= Z.of_nat (length X) ->
  strategy (self w) <> "top"%string ->
  strategy (self w) <> "linear_choice"%string ->
  strategy (self w) <> "squared_choice"%string ->
  (exists e : exn, fst (select_samples score_samples X w) = Raise e)
  /\ sample_scores_ (self (snd (select_samples score_samples X w)))
     = Some (score_samples X).
Proof.
  intros Hge H1 H2 H3.
  rewrite select_samples_enough by exact Hge. cbv zeta.
  apply String.eqb_neq in H1, H2, H3. rewrite H1, H2, H3. cbn.
  split; [eexists|]; reflexivity.
Qed.

(** C10. On a pool of fewer than [batch_size] rows, [select_samples]
    returns without a call of [score_samples], and leaves every attribute
    of the instance, [sample_scores_] among them, as it was: set by an
    earlier call, or not set at all. *)
Theorem not_enough_samples_skips_scoring (score_samples : ndarray -> list F)
  (X : ndarray) (w : world F G) :
  Z.of_nat (length X) < batch_size (self w) ->
  let w' := snd (select_samples score_samples X w) in
  score_calls (journal w') = score_calls (journal w)
  /\ self w' = self w
  /\ sample_scores_ (self w') = sample_scores_ (self w).
Proof.
  intros Hlt. cbv zeta.
  rewrite select_samples_short by exact Hlt. cbn.
  rewrite score_calls_app. cbn. rewrite app_nil_r.
  repeat split; reflexivity.
Qed.

End Scored.

(** ** The properties at sample inputs *)

Lemma select_samples_not_enough_witness :
  select_samples first_feature pool5 (new_sampler 7 "top" 0%nat)
  = (Ok [0; 1; 2; 3; 4]%nat,
     mkWorld (mkScored 7 "top" 0%nat None)
       [Warn "Requested 7 samples but data only has 5."
             NotEnoughSamplesWarning]).
Proof.
  apply (@select_samples_not_enough Q nat exact first_positive_source first_feature
           pool5 (new_sampler 7 "top" 0%nat)).
  cbn. lia.
Defined.

Lemma select_samples_unknown_strategy_witness :
  fst (select_samples first_feature pool5 (new_sampler 2 "bottom" 0%nat))
  = Raise (ValueError "Unknown sample selection strategy bottom").
Proof.
  apply (@select_samples_unknown_strategy Q nat exact first_positive_source
           first_feature pool5 (new_sampler 2 "bottom" 0%nat)).
  - cbn. lia.
  - discriminate.
  - discriminate.
  - discriminate.
Defined.

Lemma squared_choice_as_linear_choice_witness :
  fst (select_samples first_feature pool5
         (mkWorld (mkScored 2 "squared_choice" 0%nat None) []))
  = fst (select_samples (squared_scores first_feature) pool5
           (mkWorld (mkScored 2 "linear_choice" 0%nat None) []))
  /\ random_state
       (self (snd (select_samples first_feature pool5
                     (mkWorld (mkScored 2 "squared_choice" 0%nat None) []))))
     = random_state
         (self (snd (select_samples (squared_scores first_feature) pool5
                       (mkWorld (mkScored 2 "linear_choice" 0%nat None) [])))).
Proof.
  apply (@squared_choice_as_linear_choice Q nat exact first_positive_source
           first_feature pool5 2 0%nat None None [] []).
  - cbn. lia.
  - reflexivity.
Defined.

Lemma squared_choice_caches_raw_scores_witness :
  sample_scores_
    (self (snd (select_samples first_feature pool5
                  (new_sampler 2 "squared_choice" 0%nat))))
  = Some [10; 20; 30; 40; 50]%Q
  /\ fst (select_samples first_feature pool5
            (new_sampler 2 "squared_choice" 0%nat))
     = fst (choice 0%nat (arange 5) 2
              (divide (square [10; 20; 30; 40; 50]%Q)
                      (np_sum (square [10; 20; 30; 40; 50]%Q)))).
Proof.
  apply (@squared_choice_caches_raw_scores Q nat exact first_positive_source
           first_feature pool5 (new_sampler 2 "squared_choice" 0%nat)).
  - cbn. lia.
  - reflexivity.
Defined.

Lemma unknown_strategy_keeps_scores_witness :
  (exists e : exn,
      fst (select_samples first_feature pool5
             (new_sampler 2 "bottom" 0%nat)) = Raise e)
  /\ sample_scores_
       (self (snd (select_samples first_feature pool5
                     (new_sampler 2 "bottom" 0%nat))))
     = Some [10; 20; 30; 40; 50]%Q.
Proof.
  apply (@unknown_strategy_keeps_scores Q nat exact first_positive_source
           first_feature pool5 (new_sampler 2 "bottom" 0%nat)).
  - cbn. lia.
  - discriminate.
  - discriminate.
  - discriminate.
Defined.

Lemma not_enough_samples_skips_scoring_witness :
  let w := mkWorld (mkScored 7 "top" 0%nat (Some [1; 2]%Q))
                   [ScoreSamples pool3] in
  let w' := snd (select_samples first_feature pool5 w) in
  score_calls (journal w') = [pool3]
  /\ self w' = mkScored 7 "top" 0%nat (Some [1; 2]%Q)
  /\ sample_scores_ (self w') = Some [1; 2]%Q.
Proof.
  apply (@not_enough_samples_skips_scoring Q nat exact first_positive_source
           first_feature pool5
           (mkWorld (mkScored 7 "top" 0%nat (Some [1; 2]%Q))
                    [ScoreSamples pool3])).
  cbn. lia.
Defined.

(** With a batch size of zero the slice [[-0:]] is the whole array: the
    strategy ['top'] then returns every index, which is why the batch size
    is taken positive above. *)
Lemma select_samples_top_zero_batch :
  fst (select_samples tied_scores pool5 (new_sampler 0 "top" 0%nat))
  = Ok [0; 1; 2; 3; 4]%nat.
Proof. reflexivity. Qed.




(** In doubles as well, ordinary scores give a batch. *)
Lemma select_samples_binary64_example :
  fst (select_samples (fun _ => [f64 1 0; f64 3 0; f64 7 0]) pool3
         (new_sampler 2 "linear_choice" 0%nat))
  = Ok [0; 1]%nat
  /\ fst (select_samples (fun _ => [f64 1 0; f64 3 0; f64 7 0]) pool3
            (new_sampler 2 "top" 0%nat))
     = Ok [1; 2]%nat.
Proof. split; reflexivity. Qed.

(** C4, as the code has it. Under ['top'], on a pool of at least
    [batch_size] rows, the result is the last [batch_size] positions of
    [np.argsort] of the scores, an ascending sort: [batch_size] distinct
    indices, in an order in which no score is followed by a smaller one,
    and no index left out has a greater score than a selected one. Which
    of several equal scores are selected is left to [np.argsort]. On the
    scores [1,1,1,1,100] with a batch of 2, whatever the sort does with
    equal scores, the result is [k, 4] for some [k] in [0..3]. *)
Theorem select_samples_top :
  (forall (F G : Type) (numpy : Arrays F) (generator : RandomSource F G)
          (score_samples : ndarray -> list F) (X : ndarray) (w : world F G),
      argsort_contract ->
      strategy (self w) = "top"%string ->
      length (score_samples X) = length X ->
      0 < batch_size (self w) <= Z.of_nat (length X) ->
      let scores := score_samples X in
      exists index : list nat,
        fst (select_samples score_samples X w) = Ok index
        /\ index = skipn (length X - Z.to_nat (batch_size (self w)))
                         (argsort scores)
        /\ Z.of_nat (length index) = batch_size (self w)
        /\ NoDup index
        /\ StronglySorted
             (fun i j => less (nth j scores zero) (nth i scores zero) = false)
             index
        /\ (forall i j : nat,
               (i < length X)%nat -> ~ In i index -> In j index ->
               less (nth j scores zero) (nth i scores zero) = false))
  /\ (forall (G : Type) (generator : RandomSource Q G)
             (sort : list Q -> list nat) (g : G),
        @argsort_contract Q (with_argsort sort) ->
        exists k : nat,
          (k < 4)%nat
          /\ fst (@select_samples Q G (with_argsort sort) generator
                    tied_scores pool5 (new_sampler 2 "top" g))
             = Ok [k; 4]%nat).
Proof.
  split.
  - intros F G numpy generator score_samples X w Hsorts Hs Hlen Hsize scores.
    destruct (select_samples_top_sorted score_samples X w Hsorts Hs Hlen
                Hsize) as (Hrun & Hn & Hnd & _ & Hsorted & Hdom).
    eexists. split; [exact Hrun|]. split; [reflexivity|].
    repeat split; assumption.
  - intros G generator sort g Hsorts.
    destruct (@select_samples_top_sorted Q G (with_argsort sort) generator
                tied_scores pool5 (new_sampler 2 "top" g) Hsorts eq_refl
                eq_refl ltac:(cbn; lia))
      as (Hrun & Hn & Hnd & Hin & Hsorted & Hdom).
    cbv zeta in *. rewrite Hrun. clear Hrun.
    destruct (skipn _ (@argsort Q (with_argsort sort) (tied_scores pool5)))
      as [|a [|b [|c rest]]]; cbn in Hn; try lia.
    assert (Ha : (a < length pool5)%nat)
      by (rewrite Forall_forall in Hin; apply Hin; now left).
    assert (Hb : (b < length pool5)%nat)
      by (rewrite Forall_forall in Hin; apply Hin; right; now left).
    assert (Hab : ~ In a [b]) by (inversion Hnd; assumption).
    assert (Hle : less (nth b (tied_scores pool5) zero)
                       (nth a (tied_scores pool5) zero) = false).
    { inversion Hsorted as [|? ? _ Hfirst]; subst.
      rewrite Forall_forall in Hfirst. apply Hfirst. now left. }
    assert (Hfour : forall i : nat,
               (i < 4)%nat -> a <> 4%nat -> b <> 4%nat -> False).
    { intros i _ Ha4 Hb4.
      specialize (Hdom 4%nat a ltac:(cbn; lia)).
      assert (Hout : ~ In 4%nat [a; b]) by (intros [E | [E | []]]; congruence).
      specialize (Hdom Hout (or_introl eq_refl)).
      cbn in Ha.
      destruct a as [|[|[|[|[|a]]]]]; try lia; try congruence;
        vm_compute in Hdom; discriminate. }
    cbn in Ha, Hb.
    destruct b as [|[|[|[|[|b]]]]]; try lia;
      try (exfalso;
           destruct a as [|[|[|[|[|a]]]]]; try lia;
           first [ apply Hab; now left
                 | vm_compute in Hle; discriminate
                 | apply (Hfour 0%nat); [lia | discriminate | discriminate] ]).
    exists a. split; [|reflexivity].
    destruct a as [|[|[|[|[|a]]]]]; try lia.
    exfalso. apply Hab. now left.
Qed.

Lemma select_samples_top_witness :
  exists index : list nat,
    fst (select_samples tied_scores pool5 (new_sampler 2 "top" 0%nat))
    = Ok index
    /\ index = skipn 3 (argsort (tied_scores pool5))
    /\ Z.of_nat (length index) = 2
    /\ NoDup index
    /\ StronglySorted
         (fun i j => less (nth j (tied_scores pool5) zero)
                          (nth i (tied_scores pool5) zero) = false)
         index
    /\ (forall i j : nat,
           (i < 5)%nat -> ~ In i index -> In j index ->
           less (nth j (tied_scores pool5) zero)
                (nth i (tied_scores pool5) zero) = false).
Proof.
  apply (proj1 select_samples_top Q nat exact first_positive_source
           tied_scores pool5 (new_sampler 2 "top" 0%nat)).
  - exact stable_argsort_contract.
  - reflexivity.
  - reflexivity.
  - cbn. lia.
Defined.

(** C4, as the specification has it, fails: the order of equal scores is
    not the order of their indices. [reversed_argsort] sorts the scores in
    ascending order, as [np.argsort] is documented to; on the scores
    [1,1,0,0] with a batch of 1 the strategy ['top'] then returns index 0,
    where a sort that puts the lower index first among equal scores gives
    index 1. *)
Lemma top_ties_not_in_index_order :
  @argsort_contract Q ties_reversed
  /\ fst (@select_samples Q nat ties_reversed first_positive_source
            two_pairs pool4 (new_sampler 1 "top" 0%nat))
     = Ok [0]%nat
  /\ fst (@select_samples Q nat exact first_positive_source
            two_pairs pool4 (new_sampler 1 "top" 0%nat))
     = Ok [1]%nat.
Proof.
  split; [exact reversed_argsort_contract|]. split; reflexivity.
Qed.

(** ** The chain *)

Section Chain.

Context {St : Type}.

(** [a[idx]] succeeds exactly on indices in range, and reads them. *)
Lemma take_Some {A} (d : A) (a : list A) (idx : list nat) (v : list A) :
  take a idx = Some v ->
  Forall (fun i => (i < length a)%nat) idx
  /\ v = map (fun i => nth i a d) idx.
Proof.
  revert v. induction idx as [|i idx IH]; cbn; intros v Hv.
  - injection Hv as <-. split; constructor.
  - destruct (nth_error a i) as [x|] eqn:Hx; [|discriminate].
    destruct (take a idx) as [xs|]; [|discriminate].
    injection Hv as <-. destruct (IH xs eq_refl) as [Hin ->].
    split.
    + constructor; [|exact Hin]. apply nth_error_Some. congruence.
    + f_equal. symmetry. apply nth_error_nth. exact Hx.
Qed.

Lemma take_incl {A} (a : list A) (idx : list nat) (v : list A) :
  take a idx = Some v -> incl v a.
Proof.
  revert v. induction idx as [|i idx IH]; cbn; intros v Hv.
  - injection Hv as <-. intros x [].
  - destruct (nth_error a i) as [x|] eqn:Hx; [|discriminate].
    destruct (take a idx) as [xs|]; [|discriminate].
    injection Hv as <-. intros y [<- | Hy].
    + eapply nth_error_In. exact Hx.
    + eapply IH; [reflexivity | exact Hy].
Qed.

Lemma take_length {A} (a : list A) (idx : list nat) (v : list A) :
  take a idx = Some v -> length v = length idx.
Proof.
  revert v. induction idx as [|i idx IH]; cbn; intros v Hv.
  - injection Hv as <-. reflexivity.
  - destruct (nth_error a i) as [x|]; [|discriminate].
    destruct (take a idx) as [xs|]; [|discriminate].
    injection Hv as <-. cbn. f_equal. apply IH. reflexivity.
Qed.

(** One iteration that runs to its end: what each call receives. *)
Lemma loop_body_normal (X : ndarray) (selected : list nat) (o : sampler St)
  (st1 st2 : St) (predict_method : ndarray -> M St (list nat))
  (X_selected : ndarray) (new_selected selected' : list nat) :
  fit o X None (state o) = (Ok tt, st1) ->
  predict o = Some predict_method ->
  take X selected = Some X_selected ->
  predict_method X_selected st1 = (Ok new_selected, st2) ->
  take selected new_selected = Some selected' ->
  loop_body X selected o
  = (Ok selected', mkSampler st2 (fit o) (select o) (predict o)).
Proof.
  intros Hfit Hpredict HX Hnew Hsel.
  unfold loop_body, bind, invoke, call, lookup_predict, getitem, ret.
  rewrite Hfit. cbn. rewrite Hpredict, HX. cbn. rewrite Hnew, Hsel.
  reflexivity.
Qed.

(** The result of an iteration is drawn from the indices it started from. *)
Lemma loop_body_incl (X : ndarray) (selected selected' : list nat)
  (o o' : sampler St) :
  loop_body X selected o = (Ok selected', o') -> incl selected' selected.
Proof.
  unfold loop_body, bind, invoke, call, lookup_predict, getitem, ret, raise.
  destruct (fit o X None (state o)) as [[[]|e] st1]; cbn; [|discriminate].
  destruct (predict o) as [pm|]; cbn; [|discriminate].
  destruct (take X selected) as [Xs|]; cbn; [|discriminate].
  destruct (pm Xs st1) as [[new|e] st2]; cbn; [|discriminate].
  destruct (take selected new) as [sel|] eqn:Hsel; cbn; [|discriminate].
  intros Heq. injection Heq as <- _. eapply take_incl. exact Hsel.
Qed.

(** No stage of the chain adds an index: what the loop returns comes from
    what it was started with. *)
Lemma chain_loop_incl (X : ndarray) (rest rest' : list (sampler St))
  (selected final : list nat) :
  chain_loop X rest selected = (Ok final, rest') -> incl final selected.
Proof.
  revert selected rest'.
  induction rest as [|o rest IH]; cbn; intros selected rest' Hrun.
  - injection Hrun as <- _. apply incl_refl.
  - destruct (loop_body X selected o) as [[sel|e] o'] eqn:Hbody;
      [|discriminate].
    destruct (chain_loop X rest sel) as [r rest''] eqn:Hrest.
    injection Hrun as -> _.
    eapply incl_tran; [eapply IH; exact Hrest|].
    eapply loop_body_incl. exact Hbody.
Qed.

(** An object without [predict] stops the loop at its iteration, once it
    has been fitted. *)
Lemma loop_body_no_predict (X : ndarray) (selected : list nat)
  (o : sampler St) (st1 : St) :
  fit o X None (state o) = (Ok tt, st1) ->
  predict o = None ->
  fst (loop_body X selected o) = Raise (AttributeError "predict").
Proof.
  intros Hfit Hnone.
  unfold loop_body, bind, invoke, call, lookup_predict.
  rewrite Hfit. cbn. rewrite Hnone. reflexivity.
Qed.

(** C3, as the code has it. Each sampler after the first is fitted on the
    whole pool [X], with no labels; its [predict] then runs, in the state
    the fit left, on the rows [X[selected]] of the subset selected so far;
    the indices it returns are read in [selected], which gives the
    selection the loop goes on with. *)
Theorem later_sampler_step (X : ndarray) (selected : list nat)
  (o : sampler St) (rest : list (sampler St))
  (st1 st2 : St) (predict_method : ndarray -> M St (list nat))
  (X_selected : ndarray) (new_selected selected' : list nat) :
  fit o X None (state o) = (Ok tt, st1) ->
  predict o = Some predict_method ->
  take X selected = Some X_selected ->
  predict_method X_selected st1 = (Ok new_selected, st2) ->
  take selected new_selected = Some selected' ->
  let o' := mkSampler st2 (fit o) (select o) (predict o) in
  loop_body X selected o = (Ok selected', o')
  /\ selected' = map (fun i => nth i selected 0%nat) new_selected
  /\ chain_loop X (o :: rest) selected
     = (fst (chain_loop X rest selected'),
        o' :: snd (chain_loop X rest selected')).
Proof.
  intros Hfit Hpredict HX Hnew Hsel o'.
  assert (Hbody : loop_body X selected o = (Ok selected', o'))
    by (eapply loop_body_normal; eassumption).
  repeat split.
  - exact Hbody.
  - apply (take_Some 0%nat) in Hsel. apply Hsel.
  - cbn. rewrite Hbody.
    destruct (chain_loop X rest selected'); reflexivity.
Qed.

End Chain.

Lemma later_sampler_step_witness :
  let o' := recording_sampler [1]%nat [pool3] in
  loop_body pool3 [2; 0]%nat (recording_sampler [1]%nat []) = (Ok [0]%nat, o')
  /\ [0]%nat = map (fun i => nth i [2; 0]%nat 0%nat) [1]%nat
  /\ chain_loop pool3 [recording_sampler [1]%nat []] [2; 0]%nat
     = (Ok [0]%nat, [o']).
Proof.
  apply (@later_sampler_step (list ndarray) pool3 [2; 0]%nat
           (recording_sampler [1]%nat []) [] [pool3] [pool3]
           (fun _ => ret [1]%nat) [[5; 6]; [1; 2]]%Q [1]%nat [0]%nat);
    reflexivity.
Defined.

(** C3, as the specification has it, fails: the second sampler of a chain
    over a pool of three rows, two of them selected by the first, has been
    fitted on the three rows, not on the two selected ones. The loop body
    and the body that follows the words of the specification leave the
    sampler in different states; the last part runs the whole chain. *)
Lemma later_sampler_fitted_on_whole_pool :
  state (snd (loop_body pool3 [2; 0]%nat (recording_sampler [1]%nat [])))
  = [pool3]
  /\ state (snd (loop_body_fit_on_selected pool3 [2; 0]%nat
                   (recording_sampler [1]%nat [])))
     = [[[5; 6]; [1; 2]]%Q]
  /\ loop_body pool3 [2; 0]%nat (recording_sampler [1]%nat [])
     <> loop_body_fit_on_selected pool3 [2; 0]%nat
          (recording_sampler [1]%nat [])
  /\ (let run :=
        chain_select_samples pool3
          [recording_sampler [2; 0]%nat []; recording_sampler [1]%nat []] in
      fst run = Ok [0]%nat /\ map (@state _) (snd run) = [[]; [pool3]]).
Proof.
  split; [reflexivity|]. split; [reflexivity|]. split; [|split; reflexivity].
  intros Heq.
  apply (f_equal (fun r => state (snd r))) in Heq.
  discriminate Heq.
Qed.

(** Whatever the pool and the first sampler, a second sampler that is a
    [ScoredQuerySampler] with the methods of [base.py] alone makes the
    chain raise as soon as the first has returned its selection. *)
Lemma chain_second_scored_raises {F G : Type} `{Arrays F}
  `{RandomSource F G}
  (X : ndarray) (first : sampler (world F G)) (first_state : world F G)
  (selected : list nat) (score_samples : ndarray -> list F) (w : world F G)
  (rest : list (sampler (world F G))) :
  select first X (state first) = (Ok selected, first_state) ->
  fst (chain_select_samples X
         (first :: scored_sampler fit_nothing score_samples w :: rest))
  = Raise (AttributeError "predict").
Proof.
  intros Hfirst. unfold chain_select_samples, call. rewrite Hfirst.
  cbn [chain_loop].
  destruct (loop_body X selected (scored_sampler fit_nothing score_samples w))
    as [r o'] eqn:Hbody.
  assert (Hr : r = Raise (AttributeError "predict")).
  { change r with (fst (r, o')). rewrite <- Hbody.
    eapply loop_body_no_predict; reflexivity. }
  subst r. reflexivity.
Qed.

(** C5 at a chain of two samplers of strategy ['top']: the first selects
    three indices, and the loop stops at the second sampler, on which
    [predict] is looked up and not found. *)
Theorem chain_of_two_top_samplers_raises :
  fst (select_samples first_feature pool5 (new_sampler 3 "top" 0%nat))
  = Ok [2; 3; 4]%nat
  /\ fst (chain_select_samples pool5 two_top_chain)
     = Raise (AttributeError "predict").
Proof. split; reflexivity. Qed.

(** * Further properties of [base.py] *)

(** ** What [select_samples] changes and what it leaves alone *)

Section ScoredFrame.

Context {F G : Type} `{Arrays F} `{RandomSource F G}.

(** X1. Whatever the pool, the strategy and the outcome, a call of
    [select_samples] leaves [batch_size] and [strategy] as they were, and
    only adds to the journal. *)
Theorem select_samples_keeps_configuration
  (score_samples : ndarray -> list F) (X : ndarray) (w : world F G) :
  let w' := snd (select_samples score_samples X w) in
  batch_size (self w') = batch_size (self w)
  /\ strategy (self w') = strategy (self w)
  /\ exists added : list event, journal w' = journal w ++ added.
Proof.
  cbv zeta.
  destruct (Z.lt_ge_cases (Z.of_nat (length X)) (batch_size (self w)))
    as [Hlt | Hge].
  - rewrite select_samples_short by exact Hlt. cbn.
    repeat split. eexists. reflexivity.
  - rewrite select_samples_enough by exact Hge. cbv zeta.
    destruct (strategy (self w) =? "top")%string;
      [cbn; repeat split; eexists; reflexivity|].
    destruct (strategy (self w) =? "linear_choice")%string;
      [rewrite random_state_choice_snd; cbn; repeat split;
       eexists; reflexivity|].
    destruct (strategy (self w) =? "squared_choice")%string;
      [rewrite random_state_choice_snd; cbn; repeat split;
       eexists; reflexivity|].
    cbn. repeat split. eexists. reflexivity.
Qed.

(** X2. On a pool of at least [batch_size] rows, whatever the strategy,
    known or not, the scoring hook is called exactly once, on the pool,
    and [sample_scores_] holds what the hook returned. Under ['top'] and
    under an unknown strategy, where no arithmetic is done on the scores,
    the call of the hook is all that is reported: no warning is issued.
    (Under the weighted strategies numpy may warn while the weights are
    computed; the journal does not hold the warnings of numpy, and nothing
    is said of them.) *)
Theorem select_samples_scores_once
  (score_samples : ndarray -> list F) (X : ndarray) (w : world F G) :
  batch_size (self w) <= Z.of_nat (length X) ->
  let w' := snd (select_samples score_samples X w) in
  score_calls (journal w') = score_calls (journal w) ++ [X]
  /\ sample_scores_ (self w') = Some (score_samples X)
  /\ (strategy (self w) <> "linear_choice"%string ->
      strategy (self w) <> "squared_choice"%string ->
      journal w' = journal w ++ [ScoreSamples X]).
Proof.
  intros Hge. cbv zeta.
  rewrite select_samples_enough by exact Hge. cbv zeta.
  destruct (strategy (self w) =? "top")%string;
    [cbn; rewrite score_calls_app; repeat split; reflexivity|].
  destruct (strategy (self w) =? "linear_choice")%string eqn:Hl;
    [rewrite random_state_choice_snd; cbn; rewrite score_calls_app;
     split; [reflexivity|]; split; [reflexivity|];
     intros Hn; apply String.eqb_eq in Hl; contradiction|].
  destruct (strategy (self w) =? "squared_choice")%string eqn:Hq;
    [rewrite random_state_choice_snd; cbn; rewrite score_calls_app;
     split; [reflexivity|]; split; [reflexivity|];
     intros _ Hn; apply String.eqb_eq in Hq; contradiction|].
  cbn. rewrite score_calls_app. repeat split; reflexivity.
Qed.

(** X3. The generator is used by the two weighted strategies only, and only on
    a pool of at least [batch_size] rows: on a smaller pool, under ['top']
    and under an unknown strategy it is left in the state it was in. *)
Theorem select_samples_keeps_generator
  (score_samples : ndarray -> list F) (X : ndarray) (w : world F G) :
  Z.of_nat (length X) < batch_size (self w)
  \/ (strategy (self w) <> "linear_choice"%string
      /\ strategy (self w) <> "squared_choice"%string) ->
  random_state (self (snd (select_samples score_samples X w)))
  = random_state (self w).
Proof.
  intros [Hlt | [H1 H2]].
  - rewrite select_samples_short by exact Hlt. reflexivity.
  - destruct (Z.lt_ge_cases (Z.of_nat (length X)) (batch_size (self w)))
      as [Hlt | Hge].
    + rewrite select_samples_short by exact Hlt. reflexivity.
    + rewrite select_samples_enough by exact Hge. cbv zeta.
      apply String.eqb_neq in H1, H2. rewrite H1, H2.
      destruct (strategy (self w) =? "top")%string; reflexivity.
Qed.

End ScoredFrame.

Lemma select_samples_scores_once_witness :
  let w' := snd (select_samples first_feature pool5
                   (new_sampler 2 "bottom" 0%nat)) in
  score_calls (journal w') = [pool5]
  /\ sample_scores_ (self w') = Some [10; 20; 30; 40; 50]%Q
  /\ ("bottom"%string <> "linear_choice"%string ->
      "bottom"%string <> "squared_choice"%string ->
      journal w' = [ScoreSamples pool5]).
Proof.
  apply (@select_samples_scores_once Q nat exact first_positive_source
           first_feature pool5 (new_sampler 2 "bottom" 0%nat)).
  cbn. lia.
Defined.

Lemma select_samples_keeps_generator_witness :
  random_state
    (self (snd (select_samples first_feature pool5
                  (new_sampler 2 "top" 7%nat))))
  = 7%nat.
Proof.
  apply (@select_samples_keeps_generator Q nat exact first_positive_source
           first_feature pool5 (new_sampler 2 "top" 7%nat)).
  right. split; discriminate.
Defined.

(** ** The strategy ['top'] *)

(** The last index of a sorted list is the last one, or comes after. *)
Lemma sorted_last_greatest {A} (R : A -> A -> Prop) (l : list A) (i d : A) :
  StronglySorted R l -> In i l -> i = last l d \/ R i (last l d).
Proof.
  induction l as [|a l IH]; intros Hs Hi; [contradiction|].
  inversion Hs as [|? ? Hs' Ha]; subst.
  destruct l as [|b l].
  - destruct Hi as [<- | []]. now left.
  - change (last (a :: b :: l) d) with (last (b :: l) d).
    destruct Hi as [<- | Hi]; [|apply IH; assumption].
    right. rewrite Forall_forall in Ha. apply Ha.
    apply last_In. discriminate.
Qed.

Section Top.

Context {F G : Type} `{Arrays F} `{RandomSource F G}.
Hypothesis sorts : argsort_contract.

(** X4. Under ['top'] the indices come in ascending order of score: no
    score is followed by a smaller one, so the last index returned is one
    of greatest score in the whole pool (no score is greater than itself). *)
Theorem select_samples_top_ascending
  (score_samples : ndarray -> list F) (X : ndarray) (w : world F G) :
  (forall x : F, less x x = false) ->
  strategy (self w) = "top"%string ->
  length (score_samples X) = length X ->
  0 < batch_size (self w) <= Z.of_nat (length X) ->
  let scores := score_samples X in
  exists index : list nat,
    fst (select_samples score_samples X w) = Ok index
    /\ StronglySorted
         (fun i j => less (nth j scores zero) (nth i scores zero) = false)
         index
    /\ (forall i : nat,
          (i < length X)%nat ->
          less (nth (last index 0%nat) scores zero) (nth i scores zero)
          = false).
Proof.
  intros Hirr Hs Hlen Hsize scores.
  destruct (select_samples_top_sorted score_samples X w sorts Hs Hlen Hsize)
    as (Hrun & _ & _ & _ & Hsorted & _).
  subst scores. cbv zeta in *.
  eexists. split; [exact Hrun|]. split; [exact Hsorted|].
  intros i Hi.
  assert (Hl : length (argsort (score_samples X)) = length X)
    by (rewrite (argsort_length sorts); exact Hlen).
  rewrite last_skipn by (rewrite Hl; lia).
  destruct (@sorted_last_greatest _ _ (argsort (score_samples X)) i 0%nat
              (argsort_sorted sorts (score_samples X))) as [<- | Hle].
  - apply (argsort_In sorts). lia.
  - apply Hirr.
  - exact Hle.
Qed.

(** X5. Under ['top'] a smaller batch is the end of a larger one: on the same
    pool, the selection of a sampler of batch size [b2] is the last [b2]
    indices of the selection of a sampler of batch size [b1 >= b2]. *)
Theorem select_samples_top_nested
  (score_samples : ndarray -> list F) (X : ndarray) (w1 w2 : world F G) :
  strategy (self w1) = "top"%string ->
  strategy (self w2) = "top"%string ->
  length (score_samples X) = length X ->
  0 < batch_size (self w2) <= batch_size (self w1) ->
  batch_size (self w1) <= Z.of_nat (length X) ->
  exists index1 index2 : list nat,
    fst (select_samples score_samples X w1) = Ok index1
    /\ fst (select_samples score_samples X w2) = Ok index2
    /\ index2 = slice_from (- batch_size (self w2)) index1
    /\ incl index2 index1.
Proof.
  intros Hs1 Hs2 Hlen Hb2 Hb1.
  rewrite !select_samples_enough by lia. cbv zeta. rewrite Hs1, Hs2. cbn.
  set (sorted := argsort (score_samples X)).
  assert (Hl : length sorted = length X)
    by (unfold sorted; rewrite (argsort_length sorts); exact Hlen).
  rewrite !(@slice_from_last _ _ sorted) by (rewrite Hl; lia). rewrite Hl.
  assert (Heq : skipn (length X - Z.to_nat (batch_size (self w2))) sorted
                = slice_from (- batch_size (self w2))
                    (skipn (length X - Z.to_nat (batch_size (self w1)))
                           sorted)).
  { rewrite slice_from_last by (rewrite length_skipn; lia).
    rewrite skipn_skipn, length_skipn. f_equal. lia. }
  eexists. eexists. split; [reflexivity|]. split; [reflexivity|].
  split; [exact Heq|].
  rewrite Heq. rewrite slice_from_last by (rewrite length_skipn; lia).
  intros i Hi. eapply In_skipn. exact Hi.
Qed.

(** X6. When the batch size is the size of the pool, ['top'] returns every
    index of the pool once, in ascending order of score. *)
Theorem select_samples_top_whole_pool
  (score_samples : ndarray -> list F) (X : ndarray) (w : world F G) :
  strategy (self w) = "top"%string ->
  length (score_samples X) = length X ->
  0 < batch_size (self w) ->
  batch_size (self w) = Z.of_nat (length X) ->
  exists index : list nat,
    fst (select_samples score_samples X w) = Ok index
    /\ Permutation index (seq 0 (length X))
    /\ StronglySorted
         (fun i j => less (nth j (score_samples X) zero)
                          (nth i (score_samples X) zero) = false) index.
Proof.
  intros Hs Hlen Hpos Hall.
  rewrite select_samples_enough by lia. cbv zeta. rewrite Hs. cbn.
  assert (Hl : length (argsort (score_samples X)) = length X)
    by (rewrite (argsort_length sorts); exact Hlen).
  rewrite slice_from_last by (rewrite Hl; lia). rewrite Hl, Hall.
  replace (length X - Z.to_nat (Z.of_nat (length X)))%nat with 0%nat by lia.
  cbn [skipn].
  eexists. split; [reflexivity|]. split.
  - rewrite <- Hlen. apply (argsort_perm sorts).
  - apply (argsort_sorted sorts).
Qed.

(** X7. A batch size that is not positive is not rejected. The guard on the
    pool size never fires, no warning is issued, and the slice
    [[-batch_size:]] drops the first [-batch_size] indices of the sort
    instead of keeping the last ones: ['top'] returns
    [max(0, len(X) + batch_size)] indices, all of them for a batch size of
    zero. *)
Theorem select_samples_top_nonpositive_batch
  (score_samples : ndarray -> list F) (X : ndarray) (w : world F G) :
  strategy (self w) = "top"%string ->
  length (score_samples X) = length X ->
  batch_size (self w) <= 0 ->
  exists index : list nat,
    select_samples score_samples X w
    = (Ok index,
       mkWorld (mkScored (batch_size (self w)) (strategy (self w))
                         (random_state (self w)) (Some (score_samples X)))
               (journal w ++ [ScoreSamples X]))
    /\ index = skipn (Z.to_nat (- batch_size (self w)))
                     (argsort (score_samples X))
    /\ Z.of_nat (length index)
       = Z.max 0 (Z.of_nat (length X) + batch_size (self w))
    /\ NoDup index.
Proof.
  intros Hs Hlen Hb.
  assert (Ht : (strategy (self w) =? "top")%string = true)
    by (rewrite Hs; reflexivity).
  rewrite select_samples_enough by lia. cbv zeta. rewrite Ht.
  assert (Hl : length (argsort (score_samples X)) = length X)
    by (rewrite (argsort_length sorts); exact Hlen).
  assert (Hslice : slice_from (- batch_size (self w))
                     (argsort (score_samples X))
                   = skipn (Z.to_nat (- batch_size (self w)))
                           (argsort (score_samples X))).
  { unfold slice_from. rewrite Hl.
    destruct (Z.ltb_spec (- batch_size (self w)) 0); [lia|].
    destruct (Z.le_gt_cases (- batch_size (self w)) (Z.of_nat (length X)))
      as [Hle | Hgt].
    - rewrite Z.min_l by exact Hle. reflexivity.
    - rewrite Z.min_r by lia. rewrite !skipn_all2 by lia. reflexivity. }
  rewrite Hslice.
  eexists. split; [reflexivity|].
  split; [reflexivity|]. split.
  - rewrite length_skipn, Hl. lia.
  - apply NoDup_skipn, (argsort_NoDup sorts).
Qed.

End Top.

Lemma select_samples_top_ascending_witness :
  exists index : list nat,
    fst (select_samples tied_scores pool5 (new_sampler 2 "top" 0%nat))
    = Ok index
    /\ StronglySorted
         (fun i j => less (nth j (tied_scores pool5) zero)
                          (nth i (tied_scores pool5) zero) = false) index
    /\ (forall i : nat,
          (i < 5)%nat ->
          less (nth (last index 0%nat) (tied_scores pool5) zero)
               (nth i (tied_scores pool5) zero) = false).
Proof.
  apply (@select_samples_top_ascending Q nat exact first_positive_source
           stable_argsort_contract tied_scores pool5
           (new_sampler 2 "top" 0%nat)).
  - intros x. cbn. apply negb_false_iff, Qle_bool_iff, Qle_refl.
  - reflexivity.
  - reflexivity.
  - cbn. lia.
Defined.

Lemma select_samples_top_nested_witness :
  exists index1 index2 : list nat,
    fst (select_samples first_feature pool5 (new_sampler 3 "top" 0%nat))
    = Ok index1
    /\ fst (select_samples first_feature pool5 (new_sampler 2 "top" 0%nat))
       = Ok index2
    /\ index2 = slice_from (- 2) index1
    /\ incl index2 index1.
Proof.
  apply (@select_samples_top_nested Q nat exact first_positive_source
           stable_argsort_contract first_feature
           pool5 (new_sampler 3 "top" 0%nat) (new_sampler 2 "top" 0%nat)).
  - reflexivity.
  - reflexivity.
  - reflexivity.
  - cbn. lia.
  - cbn. lia.
Defined.

Lemma select_samples_top_whole_pool_witness :
  exists index : list nat,
    fst (select_samples tied_scores pool5 (new_sampler 5 "top" 0%nat))
    = Ok index
    /\ Permutation index (seq 0 5)
    /\ StronglySorted
         (fun i j => less (nth j (tied_scores pool5) zero)
                          (nth i (tied_scores pool5) zero) = false) index.
Proof.
  apply (@select_samples_top_whole_pool Q nat exact first_positive_source
           stable_argsort_contract tied_scores
           pool5 (new_sampler 5 "top" 0%nat)).
  - reflexivity.
  - reflexivity.
  - cbn. lia.
  - reflexivity.
Defined.

Lemma select_samples_top_nonpositive_batch_witness :
  exists index : list nat,
    select_samples first_feature pool5 (new_sampler (-2) "top" 0%nat)
    = (Ok index,
       mkWorld (mkScored (-2) "top" 0%nat (Some [10; 20; 30; 40; 50]%Q))
               [ScoreSamples pool5])
    /\ index = skipn 2 (argsort (first_feature pool5))
    /\ Z.of_nat (length index) = 3
    /\ NoDup index.
Proof.
  apply (@select_samples_top_nonpositive_batch Q nat exact
           first_positive_source stable_argsort_contract
           first_feature pool5 (new_sampler (-2) "top" 0%nat)).
  - reflexivity.
  - reflexivity.
  - cbn. lia.
Defined.

(** ** The chain: indices, sizes and failures *)

Section ChainIndices.

Context {St : Type}.

Lemma take_defined {A} (a : list A) (idx : list nat) :
  Forall (fun i => (i < length a)%nat) idx -> exists v, take a idx = Some v.
Proof.
  induction 1 as [|i idx Hi _ [v Hv]]; cbn; [eexists; reflexivity|].
  destruct (nth_error a i) as [x|] eqn:Hx.
  - rewrite Hv. eexists. reflexivity.
  - apply nth_error_None in Hx. lia.
Qed.

Lemma take_nth_error {A} (a : list A) (idx : list nat) (v : list A)
  (j i : nat) :
  take a idx = Some v -> nth_error idx j = Some i ->
  nth_error v j = nth_error a i.
Proof.
  revert v j. induction idx as [|k idx IH]; intros v j Hv Hj.
  - destruct j; discriminate.
  - cbn in Hv. destruct (nth_error a k) as [x|] eqn:Hx; [|discriminate].
    destruct (take a idx) as [xs|]; [|discriminate].
    injection Hv as <-. destruct j as [|j]; cbn in *.
    + injection Hj as <-. symmetry. exact Hx.
    + apply IH; [reflexivity | exact Hj].
Qed.

(** Reading [a[idx]] at [new] is reading [a] at [idx[new]]. *)
Lemma take_take {A} (a : list A) (idx new idx' : list nat) (v : list A) :
  take a idx = Some v -> take idx new = Some idx' ->
  take v new = take a idx'.
Proof.
  intros Hv. revert idx'. induction new as [|j new IH]; intros idx' Hnew.
  - cbn in Hnew. injection Hnew as <-. reflexivity.
  - cbn in Hnew. destruct (nth_error idx j) as [i|] eqn:Hj; [|discriminate].
    destruct (take idx new) as [r|]; [|discriminate].
    injection Hnew as <-. cbn.
    rewrite (@take_nth_error _ _ _ _ _ _ Hv Hj), (IH r eq_refl). reflexivity.
Qed.

Lemma take_In {A} (a : list A) (idx : list nat) (v : list A) (x : A) :
  take a idx = Some v -> In x v ->
  exists i, In i idx /\ nth_error a i = Some x.
Proof.
  revert v. induction idx as [|k idx IH]; cbn; intros v Hv Hx.
  - injection Hv as <-. contradiction.
  - destruct (nth_error a k) as [y|] eqn:Hy; [|discriminate].
    destruct (take a idx) as [ys|]; [|discriminate].
    injection Hv as <-. destruct Hx as [<- | Hx].
    + exists k. split; [now left | exact Hy].
    + destruct (IH ys eq_refl Hx) as (i & Hi & Hxi).
      exists i. split; [now right | exact Hxi].
Qed.

Lemma take_NoDup {A} (a : list A) (idx : list nat) (v : list A) :
  NoDup a -> NoDup idx -> take a idx = Some v -> NoDup v.
Proof.
  intros Ha Hidx. revert v.
  induction Hidx as [|k idx Hk Hidx IH]; cbn; intros v Hv.
  - injection Hv as <-. constructor.
  - destruct (nth_error a k) as [y|] eqn:Hy; [|discriminate].
    destruct (take a idx) as [ys|] eqn:Hys; [|discriminate].
    injection Hv as <-. constructor; [|apply IH; reflexivity].
    intros Hin. destruct (@take_In _ _ _ _ _ Hys Hin) as (i & Hi & Hyi).
    assert (i = k); [|subst; contradiction].
    rewrite NoDup_nth_error in Ha. apply Ha; [|congruence].
    apply nth_error_Some. congruence.
Qed.

Lemma take_bounds {A} (a : list A) (idx : list nat) (v : list A) :
  take a idx = Some v -> Forall (fun i => (i < length a)%nat) idx.
Proof.
  revert v. induction idx as [|k idx IH]; cbn; intros v Hv; [constructor|].
  destruct (nth_error a k) as [y|] eqn:Hy; [|discriminate].
  destruct (take a idx) as [ys|]; [|discriminate].
  constructor; [|eapply IH; reflexivity].
  apply nth_error_Some. congruence.
Qed.

Lemma take_NoDup_length {A} (a : list A) (idx : list nat) (v : list A) :
  NoDup idx -> take a idx = Some v -> (length v <= length a)%nat.
Proof.
  intros Hidx Hv. rewrite (take_length _ _ Hv).
  pose proof (take_bounds _ _ Hv) as Hin.
  rewrite <- (length_seq (length a) 0%nat) at 1.
  apply NoDup_incl_length; [exact Hidx|].
  intros i Hi. rewrite Forall_forall in Hin.
  apply in_seq. specialize (Hin i Hi). lia.
Qed.

(** An iteration that returns has read [X] at [selected]: the indices it
    started from are indices of rows of the pool. *)
Lemma loop_body_valid (X : ndarray) (selected selected' : list nat)
  (o o' : sampler St) :
  loop_body X selected o = (Ok selected', o') ->
  Forall (fun i => (i < length X)%nat) selected.
Proof.
  unfold loop_body, bind, invoke, call, lookup_predict, getitem, ret, raise.
  destruct (fit o X None (state o)) as [[[]|e] st1]; cbn; [|discriminate].
  destruct (predict o) as [pm|]; cbn; [|discriminate].
  destruct (take X selected) as [Xs|] eqn:HX; cbn; [|discriminate].
  intros _. eapply take_bounds. exact HX.
Qed.

(** An iteration whose [predict] returns distinct indices does not make
    the selection longer, and keeps it free of repetitions. *)
Lemma loop_body_shrinks (X : ndarray) (selected selected' : list nat)
  (o o' : sampler St) :
  (forall pm Xs st r st',
      predict o = Some pm -> pm Xs st = (Ok r, st') -> NoDup r) ->
  loop_body X selected o = (Ok selected', o') ->
  (length selected' <= length selected)%nat
  /\ (NoDup selected -> NoDup selected').
Proof.
  intros Hdistinct.
  unfold loop_body, bind, invoke, call, lookup_predict, getitem, ret, raise.
  destruct (fit o X None (state o)) as [[[]|e] st1]; cbn; [|discriminate].
  destruct (predict o) as [pm|] eqn:Hpm; cbn; [|discriminate].
  destruct (take X selected) as [Xs|]; cbn; [|discriminate].
  destruct (pm Xs st1) as [[new|e] st2] eqn:Hnew; cbn; [|discriminate].
  destruct (take selected new) as [sel|] eqn:Hsel; cbn; [|discriminate].
  intros Heq. injection Heq as <- _.
  pose proof (Hdistinct pm Xs st1 new st2 eq_refl Hnew) as Hnd.
  split.
  - eapply take_NoDup_length; eassumption.
  - intros Hs. exact (@take_NoDup _ selected new sel Hs Hnd Hsel).
Qed.

Lemma chain_loop_shrinks (X : ndarray) (rest rest' : list (sampler St))
  (selected final : list nat) :
  Forall (fun o : sampler St =>
            forall pm Xs st r st',
              predict o = Some pm -> pm Xs st = (Ok r, st') -> NoDup r)
         rest ->
  chain_loop X rest selected = (Ok final, rest') ->
  (length final <= length selected)%nat
  /\ (NoDup selected -> NoDup final).
Proof.
  intros Hall. revert selected rest'.
  induction Hall as [|o rest Ho _ IH]; cbn; intros selected rest' Hrun.
  - injection Hrun as <- _. split; [lia | tauto].
  - destruct (loop_body X selected o) as [[sel|e] o'] eqn:Hbody;
      [|discriminate].
    destruct (chain_loop X rest sel) as [r rest''] eqn:Hrest.
    injection Hrun as -> _.
    assert (Hstep : (length sel <= length selected)%nat
                    /\ (NoDup selected -> NoDup sel))
      by (eapply loop_body_shrinks; eassumption).
    destruct Hstep as [Hlen Hnd].
    destruct (IH _ _ Hrest) as [Hlen' Hnd'].
    split; [lia | tauto].
Qed.


(** X10. The rows a later sampler picks among the rows [X[selected]] it is
    given are the rows of the pool at the indices the loop goes on with:
    [X[selected][new_selected]] is [X[selected[new_selected]]]. *)
Theorem chain_index_translation (X X_selected : ndarray)
  (selected new_selected selected' : list nat) :
  take X selected = Some X_selected ->
  take selected new_selected = Some selected' ->
  exists rows : ndarray,
    take X_selected new_selected = Some rows
    /\ take X selected' = Some rows.
Proof.
  intros HX Hsel.
  assert (Heq : take X_selected new_selected = take X selected')
    by (eapply take_take; eassumption).
  destruct (@take_defined _ X_selected new_selected) as [rows Hrows].
  - erewrite take_length by exact HX. eapply take_bounds. exact Hsel.
  - exists rows. split; [exact Hrows | rewrite <- Heq; exact Hrows].
Qed.

(** X11. A chain that returns, returns indices that the first sampler selected;
    and when the chain has a second sampler, they are indices of rows of
    the pool, whatever the first sampler returned. *)
Theorem chain_selection_within_first (X : ndarray) (first : sampler St)
  (rest after : list (sampler St)) (final : list nat) :
  chain_select_samples X (first :: rest) = (Ok final, after) ->
  exists (selected : list nat) (first_state : St),
    select first X (state first) = (Ok selected, first_state)
    /\ incl final selected
    /\ (rest <> [] -> Forall (fun i => (i < length X)%nat) final).
Proof.
  unfold chain_select_samples, call.
  destruct (select first X (state first)) as [[selected|e] st] eqn:Hfirst;
    [|discriminate].
  destruct (chain_loop X rest selected) as [r rest'] eqn:Hloop.
  intros Heq. injection Heq as -> _.
  exists selected, st. split; [reflexivity|].
  assert (Hincl : incl final selected)
    by (eapply chain_loop_incl; exact Hloop).
  split; [exact Hincl|].
  intros Hne. destruct rest as [|o rest]; [congruence|].
  cbn in Hloop.
  destruct (loop_body X selected o) as [[sel|e] o'] eqn:Hbody;
    [|discriminate].
  assert (Hvalid : Forall (fun i => (i < length X)%nat) selected)
    by (eapply loop_body_valid; exact Hbody).
  rewrite Forall_forall in *. intros i Hi. apply Hvalid, Hincl, Hi.
Qed.

(** X12. When the [predict] of every later sampler returns indices without
    repetition, no stage makes the selection longer: the chain returns at
    most as many indices as the first sampler selected, and distinct ones
    if the first sampler's were distinct. *)
Theorem chain_never_grows (X : ndarray) (first : sampler St)
  (rest after : list (sampler St)) (final : list nat) :
  Forall (fun o : sampler St =>
            forall pm Xs st r st',
              predict o = Some pm -> pm Xs st = (Ok r, st') -> NoDup r)
         rest ->
  chain_select_samples X (first :: rest) = (Ok final, after) ->
  exists (selected : list nat) (first_state : St),
    select first X (state first) = (Ok selected, first_state)
    /\ (length final <= length selected)%nat
    /\ (NoDup selected -> NoDup final).
Proof.
  intros Hall. unfold chain_select_samples, call.
  destruct (select first X (state first)) as [[selected|e] st] eqn:Hfirst;
    [|discriminate].
  destruct (chain_loop X rest selected) as [r rest'] eqn:Hloop.
  intros Heq. injection Heq as -> _.
  exists selected, st. split; [reflexivity|].
  eapply chain_loop_shrinks; eassumption.
Qed.


End ChainIndices.

Lemma chain_index_translation_witness :
  exists rows : ndarray,
    take [[5; 6]; [1; 2]]%Q [1]%nat = Some rows
    /\ take pool3 [0]%nat = Some rows.
Proof.
  apply (@chain_index_translation pool3 [[5; 6]; [1; 2]]%Q [2; 0]%nat
           [1]%nat [0]%nat); reflexivity.
Defined.

Lemma chain_selection_within_first_witness :
  exists (selected : list nat) (first_state : list ndarray),
    select (recording_sampler [2; 0]%nat []) pool3 [] = (Ok selected, first_state)
    /\ incl [0]%nat selected
    /\ ([recording_sampler [1]%nat []] <> [] ->
        Forall (fun i => (i < 3)%nat) [0]%nat).
Proof.
  apply (@chain_selection_within_first (list ndarray) pool3
           (recording_sampler [2; 0]%nat []) [recording_sampler [1]%nat []]
           (snd (chain_select_samples pool3
                   [recording_sampler [2; 0]%nat [];
                    recording_sampler [1]%nat []]))
           [0]%nat).
  reflexivity.
Defined.

Lemma chain_never_grows_witness :
  exists (selected : list nat) (first_state : list ndarray),
    select (recording_sampler [2; 0]%nat []) pool3 [] = (Ok selected, first_state)
    /\ (length [0]%nat <= length selected)%nat
    /\ (NoDup selected -> NoDup [0]%nat).
Proof.
  apply (@chain_never_grows (list ndarray) pool3
           (recording_sampler [2; 0]%nat []) [recording_sampler [1]%nat []]
           (snd (chain_select_samples pool3
                   [recording_sampler [2; 0]%nat [];
                    recording_sampler [1]%nat []]))
           [0]%nat).
  - constructor; [|constructor].
    intros pm Xs st r st' Hpm Hr. cbn in Hpm. injection Hpm as <-.
    cbn in Hr. injection Hr as <- _. repeat constructor. intros [].
  - reflexivity.
Defined.


(** * Properties of [experiments/density.py] *)

(** ** Masks *)

Lemma length_put {A} (i : nat) (v : A) (a : list A) :
  length (put i v a) = length a.
Proof.
  revert i. induction a as [|x a IH]; intros [|i]; cbn; try reflexivity.
  rewrite IH. reflexivity.
Qed.

Lemma nth_put_same {A} (i : nat) (v d : A) (a : list A) :
  (i < length a)%nat -> nth i (put i v a) d = v.
Proof.
  revert i. induction a as [|x a IH]; intros [|i] Hi; cbn in *; try lia.
  - reflexivity.
  - apply IH. lia.
Qed.

Lemma nth_put_other {A} (i j : nat) (v d : A) (a : list A) :
  i <> j -> nth j (put i v a) d = nth j a d.
Proof.
  revert i j. induction a as [|x a IH]; intros [|i] [|j] Hij; cbn;
    try reflexivity; try congruence.
  apply IH. congruence.
Qed.

Lemma fold_put_length (idx : list nat) (m : list bool) :
  length (fold_left (fun m i => put i true m) idx m) = length m.
Proof.
  revert m. induction idx as [|i idx IH]; intros m; cbn; [reflexivity|].
  rewrite IH. apply length_put.
Qed.

Lemma fold_put_nth (idx : list nat) (m : list bool) (j : nat) :
  Forall (fun i => (i < length m)%nat) idx ->
  nth j (fold_left (fun m i => put i true m) idx m) false
  = nth j m false || existsb (Nat.eqb j) idx.
Proof.
  revert m. induction idx as [|i idx IH]; intros m Hin; cbn.
  - rewrite orb_false_r. reflexivity.
  - inversion Hin as [|? ? Hi Hin']; subst.
    rewrite IH by (rewrite length_put; exact Hin').
    destruct (Nat.eqb_spec j i) as [-> | Hne]; cbn.
    + rewrite nth_put_same by exact Hi. cbn. rewrite orb_true_r. reflexivity.
    + rewrite nth_put_other by congruence. reflexivity.
Qed.

Lemma count_true_put (i : nat) (m : list bool) :
  (i < length m)%nat -> nth i m false = false ->
  count_true (put i true m) = S (count_true m).
Proof.
  unfold count_true. revert i.
  induction m as [|x m IH]; intros [|i] Hi Hf; cbn in *; try lia.
  - subst x. reflexivity.
  - destruct x; cbn; rewrite IH by (lia || exact Hf); reflexivity.
Qed.

Lemma count_true_fold_put (idx : list nat) (m : list bool) :
  NoDup idx ->
  Forall (fun i => (i < length m)%nat /\ nth i m false = false) idx ->
  count_true (fold_left (fun m i => put i true m) idx m)
  = (count_true m + length idx)%nat.
Proof.
  intros Hnd. revert m.
  induction Hnd as [|i idx Hi Hnd IH]; intros m Hall;
    cbn [fold_left length]; [lia|].
  inversion Hall as [|? ? [Hlt Hf] Hall']; subst.
  rewrite IH.
  - rewrite count_true_put by assumption. lia.
  - rewrite Forall_forall in *. intros j Hj.
    destruct (Hall' j Hj) as [Hjl Hjf].
    rewrite length_put. split; [exact Hjl|].
    rewrite nth_put_other; [exact Hjf|]. intros ->. contradiction.
Qed.

Lemma count_true_zeros (n : nat) : count_true (zeros_bool n) = 0%nat.
Proof.
  unfold count_true, zeros_bool. induction n; cbn; [reflexivity | exact IHn].
Qed.

Lemma nth_zeros (n i : nat) : nth i (zeros_bool n) false = false.
Proof.
  unfold zeros_bool. revert i. induction n; intros [|i]; cbn; auto.
Qed.

Lemma count_true_le (m : list bool) : (count_true m <= length m)%nat.
Proof. unfold count_true. apply filter_length_le. Qed.

(** A mask that holds as often as it is long holds everywhere. *)
Lemma count_true_full (m : list bool) :
  count_true m = length m -> m = repeat true (length m).
Proof.
  induction m as [|b m IH]; [reflexivity|].
  pose proof (count_true_le m) as Hle.
  destruct b.
  - change (count_true (true :: m)) with (S (count_true m)).
    cbn [length repeat]. intros Heq. f_equal. apply IH. lia.
  - change (count_true (false :: m)) with (count_true m).
    cbn [length]. lia.
Qed.

Lemma set_true_valid (mask : list bool) (idx : list nat) :
  Forall (fun i => (i < length mask)%nat) idx ->
  set_true mask idx = Ok (fold_left (fun m i => put i true m) idx mask).
Proof.
  intros Hin. unfold set_true.
  replace (forallb (fun i => (i <? length mask)%nat) idx) with true;
    [reflexivity|].
  symmetry. apply forallb_forall. rewrite Forall_forall in Hin.
  intros i Hi. apply Nat.ltb_lt, Hin, Hi.
Qed.

(** The slice [[-n:]] of a list, for a positive [n], holds its last
    [min(n, len)] elements. *)
Lemma slice_from_last_min {A} (n : Z) (a : list A) :
  0 < n ->
  slice_from (- n) a = skipn (length a - Z.to_nat n) a.
Proof.
  intros Hn. unfold slice_from.
  destruct (Z.ltb_spec (- n) 0); [|lia].
  f_equal. lia.
Qed.

(** ** [ModalDensity.predict] *)

Section Predict.

Context {F : Type} `{Arrays F}.
Hypothesis sorts : argsort_contract.
Variable information_density : ndarray -> string -> list F.

(** Marking distinct positions of an empty mask marks that many. *)
Lemma mark_distinct (n : nat) (idx : list nat) :
  NoDup idx -> Forall (fun i => (i < n)%nat) idx ->
  set_true (zeros_bool n) idx
  = Ok (fold_left (fun m i => put i true m) idx (zeros_bool n))
  /\ count_true (fold_left (fun m i => put i true m) idx (zeros_bool n))
     = length idx.
Proof.
  intros Hnd Hin.
  assert (Hlen : length (zeros_bool n) = n) by apply repeat_length.
  split.
  - apply set_true_valid. rewrite Hlen. exact Hin.
  - rewrite count_true_fold_put, count_true_zeros; [reflexivity | exact Hnd|].
    eapply Forall_impl; [|exact Hin]. cbn. intros i Hi.
    rewrite Hlen. split; [exact Hi | apply nth_zeros].
Qed.

Lemma marked_iff (n : nat) (idx : list nat) (j : nat) :
  Forall (fun i => (i < n)%nat) idx ->
  nth j (fold_left (fun m i => put i true m) idx (zeros_bool n)) false = true
  <-> In j idx.
Proof.
  intros Hin. rewrite fold_put_nth
    by (unfold zeros_bool; rewrite repeat_length; exact Hin).
  rewrite nth_zeros. cbn. rewrite existsb_exists. split.
  - intros (i & Hi & Heq). apply Nat.eqb_eq in Heq. subst. exact Hi.
  - intros Hj. exists j. split; [exact Hj | apply Nat.eqb_refl].
Qed.

(** The positions [predict] marks, for a positive [n_samples]. *)
Lemma predict_positive (self : Density.ModalDensity) (X : ndarray) :
  length (information_density X (Density.metric self)) = length X ->
  0 < Density.n_samples self ->
  let density := information_density X (Density.metric self) in
  let idx := skipn (length X - Z.to_nat (Density.n_samples self))
                   (argsort density) in
  Density.predict information_density self X
  = Ok (fold_left (fun m i => put i true m) idx (zeros_bool (length X)))
  /\ NoDup idx
  /\ Forall (fun i => (i < length X)%nat) idx
  /\ length idx = Nat.min (Z.to_nat (Density.n_samples self)) (length X).
Proof.
  intros Hlen Hn density idx.
  assert (Hl : length (argsort density) = length X)
    by (unfold density; rewrite (argsort_length sorts); exact Hlen).
  assert (Hnd : NoDup idx) by apply NoDup_skipn, (argsort_NoDup sorts).
  assert (Hin : Forall (fun i => (i < length X)%nat) idx).
  { rewrite Forall_forall. intros i Hi. apply In_skipn, (argsort_In sorts) in Hi.
    unfold density in Hi. lia. }
  repeat split; try assumption.
  - unfold Density.predict. fold density.
    rewrite slice_from_last_min by exact Hn. rewrite Hl. fold idx.
    apply mark_distinct; assumption.
  - unfold idx. rewrite length_skipn, Hl. lia.
Qed.

(** X14. On a pool of at least [n_samples] rows, [predict] returns a mask over
    the pool that marks exactly [n_samples] rows, and no row left out has
    a greater density than a marked one. *)
Theorem predict_marks_densest (self : Density.ModalDensity) (X : ndarray) :
  length (information_density X (Density.metric self)) = length X ->
  0 < Density.n_samples self <= Z.of_nat (length X) ->
  let density := information_density X (Density.metric self) in
  exists mask : list bool,
    Density.predict information_density self X = Ok mask
    /\ length mask = length X
    /\ Z.of_nat (count_true mask) = Density.n_samples self
    /\ (forall i j : nat,
          (i < length X)%nat ->
          nth i mask false = false -> nth j mask false = true ->
          less (nth j density zero) (nth i density zero) = false).
Proof.
  intros Hlen Hn density.
  destruct (predict_positive self X Hlen) as (Hrun & Hnd & Hin & Hcount);
    [lia|].
  fold density in Hrun, Hnd, Hin, Hcount.
  set (k := (length X - Z.to_nat (Density.n_samples self))%nat) in *.
  eexists. split; [exact Hrun|]. split; [|split].
  - rewrite fold_put_length. apply repeat_length.
  - rewrite (proj2 (mark_distinct Hnd Hin)), Hcount. lia.
  - intros i j Hi Hout Hmarked.
    apply marked_iff in Hmarked; [|exact Hin].
    assert (Hi' : In i (firstn k (argsort density)
                        ++ skipn k (argsort density))).
    { rewrite firstn_skipn. apply (argsort_In sorts). unfold density. lia. }
    apply in_app_or in Hi'. destruct Hi' as [Hi' | Hi'].
    + apply (@StronglySorted_app_cross _
               (fun i j => less (nth j density zero) (nth i density zero)
                           = false)
               (firstn k (argsort density)) (skipn k (argsort density)));
        try assumption.
      rewrite firstn_skipn. apply (argsort_sorted sorts).
    + apply (marked_iff _ Hin) in Hi'. congruence.
Qed.

(** X15. There is no guard on the size of the pool in [predict]: on a pool of
    at most [n_samples] rows, and also when [n_samples] is zero, every row
    is marked, and nothing is reported. *)
Theorem predict_marks_whole_small_pool (self : Density.ModalDensity)
  (X : ndarray) :
  length (information_density X (Density.metric self)) = length X ->
  Density.n_samples self = 0
  \/ Z.of_nat (length X) <= Density.n_samples self ->
  Density.predict information_density self X = Ok (repeat true (length X)).
Proof.
  intros Hlen Hn.
  set (density := information_density X (Density.metric self)).
  assert (Hl : length (argsort density) = length X)
    by (unfold density; rewrite (argsort_length sorts); exact Hlen).
  assert (Hslice : slice_from (- Density.n_samples self) (argsort density)
                   = argsort density).
  { unfold slice_from. rewrite Hl.
    destruct (Z.ltb_spec (- Density.n_samples self) 0).
    - replace (Z.to_nat
                 (Z.max (- Density.n_samples self + Z.of_nat (length X)) 0))
        with 0%nat by lia.
      reflexivity.
    - replace (Z.to_nat
                 (Z.min (- Density.n_samples self) (Z.of_nat (length X))))
        with 0%nat by lia.
      reflexivity. }
  assert (Hin : Forall (fun i => (i < length X)%nat) (argsort density)).
  { rewrite Forall_forall. intros i Hi. apply (argsort_In sorts) in Hi.
    unfold density in Hi. lia. }
  destruct (mark_distinct (argsort_NoDup sorts density) Hin) as [Hrun Hcount].
  unfold Density.predict. fold density. rewrite Hslice, Hrun. f_equal.
  set (m := fold_left (fun m i => put i true m) (argsort density)
              (zeros_bool (length X))) in *.
  assert (Hm : length m = length X)
    by (unfold m; rewrite fold_put_length; apply repeat_length).
  rewrite <- Hm. apply count_true_full. rewrite Hcount, Hl, Hm. reflexivity.
Qed.

End Predict.

Lemma predict_marks_densest_witness :
  exists mask : list bool,
    Density.predict feature_density (Density.init 2) pool5 = Ok mask
    /\ length mask = 5%nat
    /\ Z.of_nat (count_true mask) = 2
    /\ (forall i j : nat,
          (i < 5)%nat ->
          nth i mask false = false -> nth j mask false = true ->
          less (nth j (feature_density pool5 "euclidean") zero)
               (nth i (feature_density pool5 "euclidean") zero) = false).
Proof.
  apply (@predict_marks_densest Q exact stable_argsort_contract
           feature_density (Density.init 2) pool5).
  - reflexivity.
  - cbn. lia.
Defined.

Lemma predict_marks_whole_small_pool_witness :
  Density.predict feature_density (Density.init 9) pool5
  = Ok [true; true; true; true; true].
Proof.
  apply (@predict_marks_whole_small_pool Q exact stable_argsort_contract
           feature_density (Density.init 9) pool5).
  - reflexivity.
  - right. cbn. lia.
Defined.

(** ** The update of the labelled set *)

Lemma count_true_cons (b : bool) (m : list bool) :
  count_true (b :: m) = ((if b then 1 else 0) + count_true m)%nat.
Proof. destruct b; reflexivity. Qed.

Lemma length_invert (m : list bool) : length (invert m) = length m.
Proof. apply length_map. Qed.

Lemma count_true_invert (m : list bool) :
  (count_true (invert m) + count_true m = length m)%nat.
Proof.
  induction m as [|b m IH]; [reflexivity|].
  change (invert (b :: m)) with (negb b :: invert m).
  rewrite !count_true_cons. cbn [length]. destruct b; cbn [negb]; lia.
Qed.

Lemma length_compress {A} (mask : list bool) (a : list A) :
  length mask = length a -> length (compress mask a) = count_true mask.
Proof.
  revert a. induction mask as [|b mask IH]; intros [|x a] Hlen;
    try discriminate; [reflexivity|].
  rewrite count_true_cons. injection Hlen as Hlen.
  destruct b; cbn [compress length]; rewrite IH by exact Hlen; lia.
Qed.

Lemma getitem_mask_same_length {A} (a : list A) (mask : list bool) :
  length mask = length a -> getitem_mask a mask = Ok (compress mask a).
Proof.
  intros Hlen. unfold getitem_mask. rewrite Hlen, Nat.eqb_refl. reflexivity.
Qed.

(** Writing [values] at the entries of a mask that do not hold. *)
Lemma scatter_complement (a values : list bool) :
  length values = count_true (invert a) ->
  length (scatter a (invert a) values) = length a
  /\ count_true (scatter a (invert a) values)
     = (count_true a + count_true values)%nat
  /\ (forall i : nat,
        nth i a false = true ->
        nth i (scatter a (invert a) values) false = true)
  /\ compress (invert a) (scatter a (invert a) values) = values.
Proof.
  revert values. induction a as [|x a IH]; intros values Hlen.
  - destruct values; [|discriminate]. cbn. repeat split. intros [|i]; auto.
  - change (invert (x :: a)) with (negb x :: invert a) in *.
    rewrite count_true_cons in Hlen. destruct x; cbn [negb] in *.
    + destruct (IH values Hlen) as (Hl & Hc & Hkeep & Hread).
      cbn [scatter compress length]. rewrite !count_true_cons, Hl, Hc.
      repeat split; try lia; [|exact Hread].
      intros [|i] Hi; [reflexivity | apply Hkeep, Hi].
    + destruct values as [|v values]; [discriminate|].
      cbn [length] in Hlen.
      destruct (IH values ltac:(lia)) as (Hl & Hc & Hkeep & Hread).
      cbn [scatter compress length]. rewrite !count_true_cons, Hl, Hc, Hread.
      repeat split; try (destruct v; lia).
      intros [|i] Hi; [discriminate | apply Hkeep, Hi].
Qed.

Lemma label_update_holds (selected new_selected : list bool) :
  length new_selected = count_true (invert selected) ->
  exists selected' : list bool,
    setitem_mask selected (invert selected) new_selected = Ok selected'
    /\ length selected' = length selected
    /\ count_true selected'
       = (count_true selected + count_true new_selected)%nat
    /\ (forall i : nat,
          nth i selected false = true -> nth i selected' false = true).
Proof.
  intros Hlen.
  destruct (scatter_complement selected new_selected Hlen)
    as (Hl & Hc & Hkeep & _).
  exists (scatter selected (invert selected) new_selected).
  repeat split; try assumption.
  unfold setitem_mask.
  rewrite length_invert, Nat.eqb_refl, Hlen, Nat.eqb_refl. reflexivity.
Qed.

(** X16. The update [selected[~selected] = new_selected], given one value per
    unlabelled sample, succeeds and keeps the size of the mask; no
    labelled sample loses its label; as many samples are added as
    [new_selected] marks; and reading the mask back at the samples that
    were unlabelled gives [new_selected]. *)
Theorem label_update (selected new_selected : list bool) :
  length new_selected = count_true (invert selected) ->
  exists selected' : list bool,
    setitem_mask selected (invert selected) new_selected = Ok selected'
    /\ length selected' = length selected
    /\ count_true selected'
       = (count_true selected + count_true new_selected)%nat
    /\ (forall i : nat,
          nth i selected false = true -> nth i selected' false = true)
    /\ getitem_mask selected' (invert selected) = Ok new_selected.
Proof.
  intros Hlen.
  destruct (scatter_complement selected new_selected Hlen)
    as (Hl & Hc & Hkeep & Hread).
  exists (scatter selected (invert selected) new_selected).
  repeat split; try assumption.
  - unfold setitem_mask.
    rewrite length_invert, Nat.eqb_refl, Hlen, Nat.eqb_refl. reflexivity.
  - rewrite getitem_mask_same_length by (rewrite length_invert, Hl; reflexivity).
    rewrite Hread. reflexivity.
Qed.

Lemma label_update_witness :
  exists selected' : list bool,
    setitem_mask [true; false; false; true; false]
      (invert [true; false; false; true; false]) [false; true; true]
    = Ok selected'
    /\ length selected' = 5%nat
    /\ count_true selected' = (2 + 2)%nat
    /\ (forall i : nat,
          nth i [true; false; false; true; false] false = true ->
          nth i selected' false = true)
    /\ getitem_mask selected' (invert [true; false; false; true; false])
       = Ok [false; true; true].
Proof.
  apply (@label_update [true; false; false; true; false]
           [false; true; true]).
  reflexivity.
Defined.

(** ** The loop of the experiment *)

Section ExperimentLoop.

Context {F : Type} `{Arrays F}.
Hypothesis sorts : argsort_contract.
Variable information_density : ndarray -> string -> list F.
Variable model_score : ndarray -> labels -> ndarray -> labels -> Q.

(** modAL's [information_density] gives one density per row. *)
Hypothesis density_per_row :
  forall (X : ndarray) (m : string),
    length (information_density X m) = length X.

Variable method : Density.ModalDensity.
Hypothesis n_samples_positive : 0 < Density.n_samples method.

Variables (X_train : ndarray) (y_train : labels).
Variables (X_test : ndarray) (y_test : labels).
Hypothesis same_length : length y_train = length X_train.

(** One iteration labels [n_samples] more samples, or all that are left,
    and records one score. *)
Lemma iteration_labels (l : Experiment.locals) :
  length (Experiment.selected l) = length X_train ->
  exists (mask : list bool) (score : Q),
    Experiment.iteration information_density model_score method
      X_train y_train X_test y_test l
    = (Ok tt, Experiment.mkLocals mask (Experiment.scores l ++ [score]))
    /\ length mask = length X_train
    /\ count_true mask
       = Nat.min (length X_train)
           (count_true (Experiment.selected l)
            + Z.to_nat (Density.n_samples method)).
Proof.
  intros Hmask.
  set (mask := Experiment.selected l) in *.
  set (pool := compress (invert mask) X_train).
  assert (Hpool : length pool = count_true (invert mask)).
  { unfold pool. apply length_compress. rewrite length_invert. exact Hmask. }
  destruct (@predict_positive _ _ sorts information_density method pool
              (density_per_row _ _) n_samples_positive)
    as (Hrun & Hnd & Hin & Hcount).
  destruct (mark_distinct Hnd Hin) as [_ Hmarked].
  set (new_selected :=
         fold_left (fun m i => put i true m)
           (skipn (length pool - Z.to_nat (Density.n_samples method))
              (argsort (information_density pool (Density.metric method))))
           (zeros_bool (length pool))) in *.
  assert (Hnew : length new_selected = count_true (invert mask)).
  { unfold new_selected. rewrite fold_put_length.
    unfold zeros_bool. rewrite repeat_length. exact Hpool. }
  destruct (label_update_holds mask new_selected Hnew)
    as (mask' & Hset & Hl & Hc & _).
  exists mask'. eexists. split; [|split].
  - unfold Experiment.iteration, bind, lift, Experiment.get_selected,
      Experiment.set_selected, Experiment.append_score, Density.fit.
    fold mask.
    rewrite !(@getitem_mask_same_length _ _ mask) by congruence.
    rewrite (@getitem_mask_same_length _ X_train (invert mask))
      by (rewrite length_invert; exact Hmask).
    fold pool. rewrite Hrun, Hset. cbn.
    rewrite !(@getitem_mask_same_length _ _ mask') by congruence.
    reflexivity.
  - congruence.
  - rewrite Hc, Hmarked, Hcount, Hpool.
    pose proof (count_true_invert mask). lia.
Qed.

Lemma iterations_run (k : nat) (l : Experiment.locals) :
  length (Experiment.selected l) = length X_train ->
  exists (mask : list bool) (recorded : list Q),
    for_range k
      (Experiment.iteration information_density model_score method
         X_train y_train X_test y_test) l
    = (Ok tt, Experiment.mkLocals mask (Experiment.scores l ++ recorded))
    /\ length mask = length X_train
    /\ count_true mask
       = Nat.min (length X_train)
           (count_true (Experiment.selected l)
            + k * Z.to_nat (Density.n_samples method))
    /\ length recorded = k.
Proof.
  revert l. induction k as [|k IH]; intros l Hmask.
  - exists (Experiment.selected l), []. cbn [for_range]. unfold ret.
    rewrite app_nil_r. destruct l as [sel sc].
    cbn [Experiment.selected Experiment.scores length] in *.
    repeat split; [exact Hmask|].
    pose proof (count_true_le sel). lia.
  - destruct (iteration_labels l Hmask) as (mask1 & score & Hrun & Hl1 & Hc1).
    destruct (IH (Experiment.mkLocals mask1 (Experiment.scores l ++ [score]))
                Hl1) as (mask & recorded & Hrest & Hl & Hc & Hn).
    exists mask, (score :: recorded).
    cbn [for_range]. unfold bind at 1. rewrite Hrun, Hrest.
    cbn [Experiment.selected Experiment.scores] in *.
    rewrite <- app_assoc. cbn [app length].
    repeat split; [exact Hl | | lia].
    rewrite Hc, Hc1. rewrite Nat.mul_succ_l. lia.
Qed.

(** X17. The loop over [j] never raises. Each iteration labels [n_samples]
    more samples until none is left: after [k] iterations from a mask with
    [c] labelled samples out of [N], [min(N, c + k * n_samples)] are
    labelled, and [k] scores have been recorded. *)
Theorem iterations_label_batches (k : nat) (l : Experiment.locals) :
  length (Experiment.selected l) = length X_train ->
  exists (mask : list bool) (recorded : list Q),
    for_range k
      (Experiment.iteration information_density model_score method
         X_train y_train X_test y_test) l
    = (Ok tt, Experiment.mkLocals mask (Experiment.scores l ++ recorded))
    /\ length mask = length X_train
    /\ count_true mask
       = Nat.min (length X_train)
           (count_true (Experiment.selected l)
            + k * Z.to_nat (Density.n_samples method))
    /\ length recorded = k.
Proof. apply iterations_run. Qed.

End ExperimentLoop.

Lemma first_index_found (c : Z) (y : labels) :
  In c y ->
  exists i : nat,
    first_index c y = Some i /\ (i < length y)%nat /\ nth i y (c + 1) = c.
Proof.
  induction y as [|v y IH]; intros Hin; [contradiction|].
  cbn [first_index]. destruct (Z.eqb_spec v c) as [-> | Hne].
  - exists 0%nat. cbn. repeat split. lia.
  - destruct Hin as [Heq | Hin]; [congruence|].
    destruct (IH Hin) as (i & Hi & Hlt & Hnth).
    exists (S i). rewrite Hi. cbn. repeat split; [lia | exact Hnth].
Qed.

(** The two samples labelled before the loop: the mask has the size of the
    training set and holds twice. *)
Lemma first_two_labels (n i0 i1 : nat) :
  (i0 < n)%nat -> (i1 < n)%nat -> i0 <> i1 ->
  exists mask1 mask2 : list bool,
    set_true (zeros_bool n) [i0] = Ok mask1
    /\ set_true mask1 [i1] = Ok mask2
    /\ length mask2 = n
    /\ count_true mask2 = 2%nat.
Proof.
  intros H0 H1 Hne.
  assert (Hz : length (zeros_bool n) = n) by apply repeat_length.
  exists (put i0 true (zeros_bool n)),
         (put i1 true (put i0 true (zeros_bool n))).
  repeat split.
  - rewrite set_true_valid by (repeat constructor; lia). reflexivity.
  - rewrite set_true_valid by (repeat constructor; rewrite length_put; lia).
    reflexivity.
  - rewrite !length_put. exact Hz.
  - rewrite count_true_put.
    + rewrite count_true_put by (rewrite ?Hz; auto using nth_zeros).
      rewrite count_true_zeros. reflexivity.
    + rewrite length_put. lia.
    + rewrite nth_put_other by exact Hne. apply nth_zeros.
Qed.

(** X18. With the constants of the script ([n_samples = 1000], [n_iter = 20],
    hence a batch of 25 and a training set of 502 rows), data of
    [n_samples + 2] rows whose training part holds both classes, and a
    [ModalDensity] of [batch_size] samples, a fold runs to its end: the 2
    samples labelled first and the 20 batches of 25 are the 502 training
    samples, so every one of them is labelled when the loop ends, and 20
    scores are recorded. *)
Theorem fold_labels_training_set {F : Type} `{Arrays F}
  (information_density : ndarray -> string -> list F)
  (model_score : ndarray -> labels -> ndarray -> labels -> Q)
  (method : Density.ModalDensity) (X : ndarray) (y : labels)
  (l0 : Experiment.locals) :
  argsort_contract ->
  (forall (X : ndarray) (m : string),
      length (information_density X m) = length X) ->
  Density.n_samples method = Experiment.batch_size ->
  Z.of_nat (length X) = Experiment.n_samples + 2 ->
  length y = length X ->
  In 0 (firstn (Z.to_nat Experiment.split_index) y) ->
  In 1 (firstn (Z.to_nat Experiment.split_index) y) ->
  exists recorded : list Q,
    Experiment.fold information_density model_score method X y l0
    = (Ok tt,
       Experiment.mkLocals (repeat true (Z.to_nat Experiment.split_index))
                           recorded)
    /\ length recorded = Z.to_nat Experiment.n_iter.
Proof.
  intros Hsorts Hdensity Hbatch HX Hy Hclass0 Hclass1.
  unfold Experiment.fold. cbv zeta.
  set (split := Z.to_nat Experiment.split_index) in *.
  set (X_train := firstn split X). set (y_train := firstn split y) in *.
  assert (Hsplit : Z.of_nat split = 502) by reflexivity.
  assert (HXt : length X_train = split).
  { unfold X_train. rewrite length_firstn.
    change Experiment.n_samples with 1000 in HX. lia. }
  assert (Hyt : length y_train = length X_train).
  { unfold y_train. rewrite length_firstn, HXt.
    change Experiment.n_samples with 1000 in HX. lia. }
  destruct (first_index_found 0 y_train Hclass0) as (i0 & Hi0 & Hlt0 & Hn0).
  destruct (first_index_found 1 y_train Hclass1) as (i1 & Hi1 & Hlt1 & Hn1).
  assert (Hne : i0 <> i1).
  { intros ->. rewrite (nth_indep _ _ (1 + 1) Hlt1) in Hn0. lia. }
  destruct (@first_two_labels (length X_train) i0 i1)
    as (mask1 & mask2 & Hset1 & Hset2 & Hl2 & Hc2); try lia.
  destruct (@iterations_run _ _ Hsorts information_density model_score
              Hdensity method ltac:(rewrite Hbatch; reflexivity)
              X_train y_train (slice_from Experiment.split_index X)
              (slice_from Experiment.split_index y) Hyt
              (Z.to_nat Experiment.n_iter) (Experiment.mkLocals mask2 []) Hl2)
    as (mask & recorded & Hloop & Hl & Hc & Hn).
  exists recorded. split; [|exact Hn].
  unfold bind, Experiment.set_selected, Experiment.get_selected, lift.
  rewrite Hi0. cbn [Experiment.selected Experiment.scores].
  rewrite Hset1, Hi1. cbn [Experiment.selected Experiment.scores].
  rewrite Hset2. cbn [Experiment.selected Experiment.scores].
  rewrite Hloop. cbn [Experiment.selected Experiment.scores app].
  f_equal. f_equal.
  rewrite <- HXt, <- Hl. apply count_true_full.
  rewrite Hc. cbn [Experiment.selected]. rewrite Hc2, Hbatch, Hl, HXt.
  change (Z.to_nat Experiment.n_iter) with 20%nat.
  change (Z.to_nat Experiment.batch_size) with 25%nat.
  lia.
Qed.

Lemma first_index_In (c : Z) (y : labels) (i : nat) :
  first_index c y = Some i -> In c y.
Proof.
  revert i. induction y as [|v y IH]; intros i Hi; [discriminate|].
  cbn [first_index] in Hi. destruct (Z.eqb_spec v c) as [-> | Hne].
  - now left.
  - destruct (first_index c y) as [k|]; [|discriminate].
    right. eapply IH. reflexivity.
Qed.

(** X19. When one of the two classes is missing from the training labels, the
    fold raises [IndexError] before its first iteration, and no score is
    computed: the subscript [np.where(y_train == c)[0][0]] finds
    nothing. *)
Theorem fold_needs_both_classes {F : Type} `{Arrays F}
  (information_density : ndarray -> string -> list F)
  (model_score : ndarray -> labels -> ndarray -> labels -> Q)
  (method : Density.ModalDensity) (X : ndarray) (y : labels)
  (l0 : Experiment.locals) :
  ~ In 0 (firstn (Z.to_nat Experiment.split_index) y)
  \/ ~ In 1 (firstn (Z.to_nat Experiment.split_index) y) ->
  let run := Experiment.fold information_density model_score method X y l0 in
  fst run = Raise IndexError
  /\ Experiment.scores (snd run) = Experiment.scores l0.
Proof.
  intros Hmissing. cbv zeta.
  unfold Experiment.fold, bind, Experiment.set_selected,
    Experiment.get_selected, lift, raise.
  cbv zeta. cbn [Experiment.selected Experiment.scores].
  set (y_train := firstn (Z.to_nat Experiment.split_index) y) in *.
  destruct (first_index 0 y_train) as [i0|] eqn:Hi0; [|split; reflexivity].
  cbn [Experiment.selected Experiment.scores].
  destruct (set_true _ [i0]) as [mask1|e] eqn:Hset1.
  - cbn [Experiment.selected Experiment.scores].
    destruct (first_index 1 y_train) as [i1|] eqn:Hi1; [|split; reflexivity].
    exfalso. apply first_index_In in Hi0, Hi1. tauto.
  - unfold set_true in Hset1.
    destruct (forallb _ [i0]); [discriminate|].
    injection Hset1 as <-. split; reflexivity.
Qed.

Lemma iterations_label_batches_witness :
  exists (mask : list bool) (recorded : list Q),
    for_range 2
      (Experiment.iteration feature_density (fun _ _ _ _ => 0%Q)
         (Density.init 2) pool5 [0; 1; 0; 1; 0] pool3 [1; 0; 1])
      (Experiment.mkLocals [true; false; false; false; false] [])
    = (Ok tt, Experiment.mkLocals mask ([] ++ recorded))
    /\ length mask = 5%nat
    /\ count_true mask = Nat.min 5 (1 + 2 * 2)
    /\ length recorded = 2%nat.
Proof.
  apply (@iterations_label_batches Q exact stable_argsort_contract
           feature_density (fun _ _ _ _ => 0%Q)
           (fun X _ => length_map _ X) (Density.init 2) eq_refl
           pool5 [0; 1; 0; 1; 0] pool3 [1; 0; 1] eq_refl 2%nat
           (Experiment.mkLocals [true; false; false; false; false] [])).
  reflexivity.
Defined.

Lemma fold_labels_training_set_witness :
  exists recorded : list Q,
    Experiment.fold feature_density (fun _ _ _ _ => 0%Q)
      Experiment.modal_euclidean
      (repeat [1%Q] 1002) (0 :: repeat 1 1001) (Experiment.mkLocals [] [])
    = (Ok tt,
       Experiment.mkLocals (repeat true (Z.to_nat Experiment.split_index))
                           recorded)
    /\ length recorded = Z.to_nat Experiment.n_iter.
Proof.
  apply (@fold_labels_training_set Q exact feature_density
           (fun _ _ _ _ => 0%Q)
           Experiment.modal_euclidean
           (repeat [1%Q] 1002) (0 :: repeat 1 1001)
           (Experiment.mkLocals [] [])).
  - exact stable_argsort_contract.
  - intros X m. apply length_map.
  - reflexivity.
  - rewrite repeat_length. reflexivity.
  - cbn [length]. rewrite !repeat_length. reflexivity.
  - left. reflexivity.
  - right. left. reflexivity.
Defined.

Lemma fold_needs_both_classes_witness :
  let run :=
    Experiment.fold feature_density (fun _ _ _ _ => 0%Q)
      Experiment.modal_euclidean
      (repeat [1%Q] 1002) (repeat 1 1002) (Experiment.mkLocals [] [7%Q]) in
  fst run = Raise IndexError /\ Experiment.scores (snd run) = [7%Q].
Proof.
  apply (@fold_needs_both_classes Q exact feature_density
           (fun _ _ _ _ => 0%Q)
           Experiment.modal_euclidean
           (repeat [1%Q] 1002) (repeat 1 1002)
           (Experiment.mkLocals [] [7%Q])).
  left. intros Hin. apply In_firstn in Hin. apply repeat_spec in Hin.
  discriminate Hin.
Defined.
